(** * Collaboro relay server: signalling and room bookkeeping

    A shallow embedding of the backend server (the Express / Socket.io
    relay): its three in-memory maps, the Socket.io room adapter the
    handlers drive through [socket.join], [socket.leave], [io.to] and
    [socket.to], with the sessions and the packet log it keeps for
    connection-state recovery, every socket event handler, the two HTTP
    routes and the
    options object the Socket.io server is built with; and, of the
    frontend, the socket service's emitting methods, the chat panel's
    send and the identity announced on connect, as far as they meet the
    relay. *)

From Stdlib Require Import List String Ascii ZArith Bool Lia.
From Stdlib Require Import DecimalString DecimalPos DecimalZ.
Import ListNotations.
Local Open Scope string_scope.
Local Open Scope Z_scope.
Set Warnings "-register-all".

(** ** JavaScript values carried in payloads *)

Inductive json : Type :=
| JUndefined
| JNull
| JBool (b : bool)
| JNum (z : Z)
| JStr (s : string)
| JArr (items : list json)
| JObj (fields : list (string * json)).

(** Truthiness, as the [||] operator tests it. *)
Definition truthy (v : json) : bool :=
  match v with
  | JUndefined | JNull => false
  | JBool b => b
  | JNum z => negb (z =? 0)
  | JStr s => negb (s =? "")%string
  | JArr _ | JObj _ => true
  end.

(** [a || b] *)
Definition js_or (a b : json) : json := if truthy a then a else b.

(** [obj.key] on an object literal. *)
Fixpoint assoc (key : string) (fields : list (string * json)) : json :=
  match fields with
  | [] => JUndefined
  | (k, v) :: rest => if (key =? k)%string then v else assoc key rest
  end.

Definition field (key : string) (v : json) : json :=
  match v with
  | JObj fields => assoc key fields
  | _ => JUndefined
  end.

Definition SocketId := string.
Definition RoomId := string.

(** ** [Set] of strings, iterated in insertion order *)

Module JSSet.

Definition t := list string.

Definition empty : t := [].

Definition has (x : string) (s : t) : bool := existsb (String.eqb x) s.

Definition add (x : string) (s : t) : t :=
  if has x s then s else (s ++ [x])%list.

Definition delete (x : string) (s : t) : t :=
  filter (fun y => negb (x =? y)%string) s.

Definition size (s : t) : Z := Z.of_nat (List.length s).

End JSSet.

(** ** [Map] with string keys, iterated in insertion order *)

Module JSMap.

Definition t (V : Type) := list (string * V).

Definition empty {V} : t V := [].

Fixpoint get {V} (k : string) (m : t V) : option V :=
  match m with
  | [] => None
  | (k', v) :: rest => if (k =? k')%string then Some v else get k rest
  end.

Definition has {V} (k : string) (m : t V) : bool :=
  match get k m with Some _ => true | None => false end.

(** An existing key keeps its place, a new key goes last. *)
Fixpoint set {V} (k : string) (v : V) (m : t V) : t V :=
  match m with
  | [] => [(k, v)]
  | (k', v') :: rest =>
      if (k =? k')%string then (k', v) :: rest else (k', v') :: set k v rest
  end.

Definition delete {V} (k : string) (m : t V) : t V :=
  filter (fun e => negb (k =? fst e)%string) m.

Definition size {V} (m : t V) : Z := Z.of_nat (List.length m).

Definition keys {V} (m : t V) : list string := map fst m.

End JSMap.

(** ** The relay's state *)

(** The object [user:join] stores: [{ id, userId, username, email }]. *)
Module User.
Record t : Type := make {
  id : SocketId;
  userId : json;
  username : json;
  email : json
}.
End User.

(** [activeUsers], [chatRooms] and [videoRooms] are the server's three
    module-level maps.  [rooms] is Socket.io's own room table
    ([io.sockets.adapter.rooms], room name -> socket ids), which
    [socket.join] and [socket.leave] write and every [emit] reads. *)
Record Server : Type := mkServer {
  activeUsers : JSMap.t User.t;
  chatRooms : JSMap.t JSSet.t;
  videoRooms : JSMap.t JSSet.t;
  rooms : JSMap.t JSSet.t
}.

(** The state when the process starts: [new Map()] three times, and no
    socket connected. *)
Definition boot : Server :=
  {| activeUsers := JSMap.empty; chatRooms := JSMap.empty;
     videoRooms := JSMap.empty; rooms := JSMap.empty |}.

(** The two room maps share their handlers' shape. *)
Inductive RoomMap : Type := ChatRooms | VideoRooms.

Definition room_map (w : RoomMap) (st : Server) : JSMap.t JSSet.t :=
  match w with ChatRooms => chatRooms st | VideoRooms => videoRooms st end.

Definition with_room_map (w : RoomMap) (m : JSMap.t JSSet.t) (st : Server)
  : Server :=
  match w with
  | ChatRooms =>
      {| activeUsers := activeUsers st; chatRooms := m;
         videoRooms := videoRooms st; rooms := rooms st |}
  | VideoRooms =>
      {| activeUsers := activeUsers st; chatRooms := chatRooms st;
         videoRooms := m; rooms := rooms st |}
  end.

Definition with_activeUsers (m : JSMap.t User.t) (st : Server) : Server :=
  {| activeUsers := m; chatRooms := chatRooms st;
     videoRooms := videoRooms st; rooms := rooms st |}.

Definition with_rooms (m : JSMap.t JSSet.t) (st : Server) : Server :=
  {| activeUsers := activeUsers st; chatRooms := chatRooms st;
     videoRooms := videoRooms st; rooms := m |}.

(** ** What a handler does to the outside *)

Inductive Level : Type := Info | Error.

(** [Console] is one [console.log] / [console.error] call; a template
    literal is kept as its text segments and interpolated values, in
    order.  [Emit] is one [emit] call with the sockets the adapter hands
    the packet to, in order. *)
Inductive Effect : Type :=
| Console (lvl : Level) (parts : list json)
| Emit (event : string) (payload : json) (recipients : list SocketId).

Inductive Outcome (A : Type) : Type :=
| Done (a : A)
| Throw (err : string).
Arguments Done {A} a.
Arguments Throw {A} err.

(** A handler body: state in, outcome, state and effects out. *)
Definition M (A : Type) : Type := Server -> Outcome A * Server * list Effect.

Definition ret {A} (a : A) : M A := fun st => (Done a, st, []).

Definition bind {A B} (m : M A) (k : A -> M B) : M B :=
  fun st =>
    match m st with
    | (Done a, st1, out1) =>
        match k a st1 with (r, st2, out2) => (r, st2, (out1 ++ out2)%list) end
    | (Throw e, st1, out1) => (Throw e, st1, out1)
    end.

Notation "x <- m ;; k" := (bind m (fun x => k))
  (at level 61, m at next level, right associativity).
Notation "m ;; k" := (bind m (fun _ => k))
  (at level 61, right associativity).

Definition throw {A} (err : string) : M A := fun st => (Throw err, st, []).

Definition read {A} (f : Server -> A) : M A := fun st => (Done (f st), st, []).

Definition modify (f : Server -> Server) : M unit :=
  fun st => (Done tt, f st, []).

Definition tell (e : Effect) : M unit := fun st => (Done tt, st, [e]).

Definition when (b : bool) (m : M unit) : M unit := if b then m else ret tt.

Definition console_log (parts : list json) : M unit :=
  tell (Console Info parts).
Definition console_error (parts : list json) : M unit :=
  tell (Console Error parts).

(** ** Socket.io's in-memory adapter

    Socket.io is a dependency of the server, not part of its sources;
    this is the room table of its in-memory adapter (version 4, the one
    that has [connectionStateRecovery]) as far as the handlers drive it.
    Rooms are named by strings.  A socket's own id names a room like any
    other, which the socket joins when it connects; [io.to(id)] reaches
    a socket through that room, and [socket.to(room)] leaves the sender
    out by excepting that room. *)

(** The members a room table holds for a room: none when the room has
    no entry. *)
Definition members (room : RoomId) (rs : JSMap.t JSSet.t) : JSSet.t :=
  match JSMap.get room rs with Some m => m | None => JSSet.empty end.

Module Adapter.

(** [addAll(id, {room})]: create the room if need be, then add [id]. *)
Definition addAll (id : SocketId) (room : RoomId) (rs : JSMap.t JSSet.t)
  : JSMap.t JSSet.t :=
  JSMap.set room (JSSet.add id (members room rs)) rs.

(** [del(id, room)]: remove [id]; a room left empty is dropped. *)
Definition del (id : SocketId) (room : RoomId) (rs : JSMap.t JSSet.t)
  : JSMap.t JSSet.t :=
  match JSMap.get room rs with
  | Some m =>
      let m' := JSSet.delete id m in
      if JSSet.size m' =? 0 then JSMap.delete room rs
      else JSMap.set room m' rs
  | None => rs
  end.

(** [delAll(id)]: [del] for every room [id] is in. *)
Definition delAll (id : SocketId) (rs : JSMap.t JSSet.t) : JSMap.t JSSet.t :=
  flat_map
    (fun e : string * JSSet.t =>
       if JSSet.has id (snd e) then
         let m' := JSSet.delete id (snd e) in
         if JSSet.size m' =? 0 then [] else [(fst e, m')]
       else [e])
    rs.

(** The ids found in the excepted rooms. *)
Definition computeExceptSids (except : list RoomId) (rs : JSMap.t JSSet.t)
  : JSSet.t :=
  flat_map (fun r => members r rs) except.

(** [broadcast] to one room: its members, but for the excepted ids. *)
Definition targets (room : RoomId) (except : list RoomId)
    (rs : JSMap.t JSSet.t) : list SocketId :=
  filter (fun id => negb (JSSet.has id (computeExceptSids except rs)))
         (members room rs).

End Adapter.

(** [socket.join(room)] *)
Definition socket_join (socket : SocketId) (room : RoomId) : M unit :=
  modify (fun st => with_rooms (Adapter.addAll socket room (rooms st)) st).

(** [socket.leave(room)] *)
Definition socket_leave (socket : SocketId) (room : RoomId) : M unit :=
  modify (fun st => with_rooms (Adapter.del socket room (rooms st)) st).

(** What Socket.io does to a closing socket before it fires
    ['disconnect']: the socket leaves every room. *)
Definition socket_leaveAll (socket : SocketId) : M unit :=
  modify (fun st => with_rooms (Adapter.delAll socket (rooms st)) st).

(** [io.to(room).emit(event, payload)]: who the packet goes to.  That
    the adapter also keeps the packet in its log, recovery being on, is
    in [Relay.handles]. *)
Definition io_to_emit (room : RoomId) (event : string) (payload : json)
  : M unit :=
  st <- read (fun st => st) ;;
  tell (Emit event payload (Adapter.targets room [] (rooms st))).

(** [socket.to(room).emit(event, payload)]: the broadcast operator of a
    socket excepts the room named by the socket's id. *)
Definition socket_to_emit (socket : SocketId) (room : RoomId)
    (event : string) (payload : json) : M unit :=
  st <- read (fun st => st) ;;
  tell (Emit event payload (Adapter.targets room [socket] (rooms st))).

(** ** [Map] and [Set] calls on [chatRooms] / [videoRooms] *)

Definition map_has (w : RoomMap) (k : RoomId) : M bool :=
  read (fun st => JSMap.has k (room_map w st)).

Definition map_set (w : RoomMap) (k : RoomId) (v : JSSet.t) : M unit :=
  modify (fun st => with_room_map w (JSMap.set k v (room_map w st)) st).

Definition map_delete (w : RoomMap) (k : RoomId) : M unit :=
  modify (fun st => with_room_map w (JSMap.delete k (room_map w st)) st).

(** [w.get(k)] where a method is then called on the result: [undefined]
    makes that call throw. *)
Definition map_get (w : RoomMap) (k : RoomId) : M JSSet.t :=
  m <- read (room_map w) ;;
  match JSMap.get k m with
  | Some s => ret s
  | None => throw "TypeError: Cannot read properties of undefined"
  end.

(** [w.get(k).add(x)]: the Set stored under [k] is changed in place. *)
Definition set_add (w : RoomMap) (k : RoomId) (x : SocketId) : M unit :=
  s <- map_get w k ;; map_set w k (JSSet.add x s).

(** [w.get(k).delete(x)] *)
Definition set_delete (w : RoomMap) (k : RoomId) (x : SocketId) : M unit :=
  s <- map_get w k ;; map_set w k (JSSet.delete x s).

(** [w.get(k).size] *)
Definition set_size (w : RoomMap) (k : RoomId) : M Z :=
  s <- map_get w k ;; ret (JSSet.size s).

(** [activeUsers.get(id)] *)
Definition activeUsers_get (socket : SocketId) : M (option User.t) :=
  read (fun st => JSMap.get socket (activeUsers st)).

(** [user?.f] *)
Definition opt (f : User.t -> json) (user : option User.t) : json :=
  match user with Some u => f u | None => JUndefined end.

(** A number inside a template literal. *)
Definition dec (z : Z) : string := NilZero.string_of_int (Z.to_int z).

(** ** Event arguments *)

(** The argument of [user:join]. *)
Module UserData.
Record t : Type := make {
  userId : json;
  username : json;
  email : json
}.
End UserData.

(** The argument of [chat:send-message]. *)
Module MessageData.
Record t : Type := make {
  roomId : RoomId;
  message : json;
  userId : json;
  username : json
}.
End MessageData.

(** What a handler reads off the clock, [Date.now()] and
    [new Date().toISOString()]; one reading serves a whole handler
    call. *)
Record Clock : Type := mkClock {
  ms : Z;
  iso : string
}.

(** ** The socket event handlers, in source order *)

(** [io.on('connect_error', (error) => ...)] *)
Definition on_connect_error (message : json) : M unit :=
  console_error [JStr "❌ Socket.io connection error:"; message].

(** The body of [io.on('connection', (socket) => ...)] before the
    handlers are registered. *)
Definition on_connection (socket : SocketId) (transport : string)
    (origin userAgent : json) : M unit :=
  console_log [JStr "✅ Client connected:"; JStr socket;
               JStr "(transport: "; JStr transport; JStr ")"] ;;
  console_log [JStr "Connection origin:"; origin] ;;
  console_log [JStr "User agent:"; userAgent].

(** [socket.on('user:join', (userData) => ...)] *)
Definition on_user_join (socket : SocketId) (userData : UserData.t) : M unit :=
  modify (fun st =>
    with_activeUsers
      (JSMap.set socket
         {| User.id := socket;
            User.userId := UserData.userId userData;
            User.username := UserData.username userData;
            User.email := UserData.email userData |}
         (activeUsers st)) st) ;;
  console_log [JStr "👤 User joined: "; UserData.username userData].

(** [socket.on('chat:join-room', (roomId) => ...)] *)
Definition on_chat_join_room (socket : SocketId) (roomId : RoomId)
    (now : Clock) : M unit :=
  socket_join socket roomId ;;
  has <- map_has ChatRooms roomId ;;
  when (negb has) (map_set ChatRooms roomId JSSet.empty) ;;
  set_add ChatRooms roomId socket ;;
  user <- activeUsers_get socket ;;
  console_log [JStr "💬 "; js_or (opt User.username user) (JStr socket);
               JStr " joined chat room: "; JStr roomId] ;;
  socket_to_emit socket roomId "chat:user-joined"
    (JObj [("userId", opt User.userId user);
           ("username", opt User.username user);
           ("timestamp", JStr (iso now))]) ;;
  userCount <- set_size ChatRooms roomId ;;
  io_to_emit socket "chat:room-joined"
    (JObj [("roomId", JStr roomId); ("userCount", JNum userCount)]).

(** [socket.on('chat:send-message', (data) => ...)] *)
Definition on_chat_send_message (socket : SocketId) (data : MessageData.t)
    (now : Clock) : M unit :=
  let roomId := MessageData.roomId data in
  let message := MessageData.message data in
  user <- activeUsers_get socket ;;
  let messageData :=
    JObj [("id", JStr ("msg-" ++ dec (ms now) ++ "-" ++ socket));
          ("roomId", JStr roomId);
          ("message", message);
          ("userId", js_or (MessageData.userId data) (opt User.userId user));
          ("username",
           js_or (MessageData.username data) (opt User.username user));
          ("timestamp", JStr (iso now))] in
  console_log [JStr "📨 Message in "; JStr roomId; JStr " from ";
               field "username" messageData; JStr ": "; message] ;;
  io_to_emit roomId "chat:receive-message" messageData.

(** [socket.on('chat:leave-room', (roomId) => ...)] *)
Definition on_chat_leave_room (socket : SocketId) (roomId : RoomId)
    (now : Clock) : M unit :=
  socket_leave socket roomId ;;
  has <- map_has ChatRooms roomId ;;
  when has
    (set_delete ChatRooms roomId socket ;;
     size <- set_size ChatRooms roomId ;;
     when (size =? 0) (map_delete ChatRooms roomId)) ;;
  user <- activeUsers_get socket ;;
  console_log [JStr "💬 "; js_or (opt User.username user) (JStr socket);
               JStr " left chat room: "; JStr roomId] ;;
  socket_to_emit socket roomId "chat:user-left"
    (JObj [("userId", opt User.userId user);
           ("username", opt User.username user);
           ("timestamp", JStr (iso now))]).

(** [Array.from(members).filter(id => id !== socket.id).map(...)] *)
Definition otherUsers (socket : SocketId) (members : JSSet.t)
    (users : JSMap.t User.t) : list json :=
  map (fun id =>
         let u := JSMap.get id users in
         JObj [("socketId", JStr id);
               ("userId", opt User.userId u);
               ("username", opt User.username u)])
      (filter (fun id => negb (id =? socket)%string) members).

(** [socket.on('video:join-room', (roomId) => ...)] *)
Definition on_video_join_room (socket : SocketId) (roomId : RoomId) : M unit :=
  socket_join socket roomId ;;
  has <- map_has VideoRooms roomId ;;
  when (negb has) (map_set VideoRooms roomId JSSet.empty) ;;
  set_add VideoRooms roomId socket ;;
  user <- activeUsers_get socket ;;
  console_log [JStr "📹 "; js_or (opt User.username user) (JStr socket);
               JStr " joined video room: "; JStr roomId] ;;
  members <- map_get VideoRooms roomId ;;
  users <- read activeUsers ;;
  io_to_emit socket "video:all-users"
    (JArr (otherUsers socket members users)) ;;
  socket_to_emit socket roomId "video:user-joined"
    (JObj [("socketId", JStr socket);
           ("userId", opt User.userId user);
           ("username", opt User.username user)]).

(** [socket.on('video:send-offer', ({ offer, to }) => ...)] *)
Definition on_video_send_offer (socket : SocketId) (offer : json)
    (to : SocketId) : M unit :=
  console_log [JStr "📡 Sending offer from "; JStr socket; JStr " to ";
               JStr to] ;;
  user <- activeUsers_get socket ;;
  io_to_emit to "video:receive-offer"
    (JObj [("offer", offer);
           ("from", JStr socket);
           ("username", opt User.username user)]).

(** [socket.on('video:send-answer', ({ answer, to }) => ...)] *)
Definition on_video_send_answer (socket : SocketId) (answer : json)
    (to : SocketId) : M unit :=
  console_log [JStr "📡 Sending answer from "; JStr socket; JStr " to ";
               JStr to] ;;
  io_to_emit to "video:receive-answer"
    (JObj [("answer", answer); ("from", JStr socket)]).

(** [socket.on('video:ice-candidate', ({ candidate, to }) => ...)] *)
Definition on_video_ice_candidate (socket : SocketId) (candidate : json)
    (to : SocketId) : M unit :=
  io_to_emit to "video:ice-candidate"
    (JObj [("candidate", candidate); ("from", JStr socket)]).

(** [socket.on('video:leave-room', (roomId) => ...)] *)
Definition on_video_leave_room (socket : SocketId) (roomId : RoomId) : M unit :=
  socket_leave socket roomId ;;
  has <- map_has VideoRooms roomId ;;
  when has
    (set_delete VideoRooms roomId socket ;;
     size <- set_size VideoRooms roomId ;;
     when (size =? 0) (map_delete VideoRooms roomId)) ;;
  user <- activeUsers_get socket ;;
  console_log [JStr "📹 "; js_or (opt User.username user) (JStr socket);
               JStr " left video room: "; JStr roomId] ;;
  socket_to_emit socket roomId "video:user-left"
    (JObj [("socketId", JStr socket);
           ("userId", opt User.userId user);
           ("username", opt User.username user)]).

(** [w.forEach((users, roomId) => { if (users.has(socket.id)) {
      users.delete(socket.id); socket.to(roomId).emit(event, payload) } })]:
    every entry is visited in insertion order, the Set object of an
    entry that holds the socket is changed in place, and no key is
    removed.  The result is the map's entries after the loop. *)
Fixpoint forEach_remove (socket : SocketId) (event : string) (payload : json)
    (entries : JSMap.t JSSet.t) : M (JSMap.t JSSet.t) :=
  match entries with
  | [] => ret []
  | (roomId, users) :: rest =>
      if JSSet.has socket users then
        socket_to_emit socket roomId event payload ;;
        rest' <- forEach_remove socket event payload rest ;;
        ret ((roomId, JSSet.delete socket users) :: rest')
      else
        rest' <- forEach_remove socket event payload rest ;;
        ret ((roomId, users) :: rest')
  end.

Definition remove_from_all (w : RoomMap) (socket : SocketId) (event : string)
    (payload : json) : M unit :=
  entries <- read (room_map w) ;;
  entries' <- forEach_remove socket event payload entries ;;
  modify (with_room_map w entries').

(** [socket.on('disconnect', () => ...)] *)
Definition on_disconnect (socket : SocketId) (now : Clock) : M unit :=
  console_log [JStr "❌ Client disconnected:"; JStr socket] ;;
  user <- activeUsers_get socket ;;
  remove_from_all ChatRooms socket "chat:user-left"
    (JObj [("userId", opt User.userId user);
           ("username", opt User.username user);
           ("timestamp", JStr (iso now))]) ;;
  remove_from_all VideoRooms socket "video:user-left"
    (JObj [("socketId", JStr socket);
           ("userId", opt User.userId user);
           ("username", opt User.username user)]) ;;
  modify (fun st =>
    with_activeUsers (JSMap.delete socket (activeUsers st)) st).

(** [socket.on('error', (error) => ...)] *)
Definition on_error (error : json) : M unit :=
  console_error [JStr "❌ Socket error:"; error].

(** ** The server as a transition system *)

Inductive Event : Type :=
| ConnectError (message : json)
| Connection (socket : SocketId) (transport : string) (origin userAgent : json)
| UserJoin (socket : SocketId) (userData : UserData.t)
| ChatJoinRoom (socket : SocketId) (roomId : RoomId) (now : Clock)
| ChatSendMessage (socket : SocketId) (data : MessageData.t) (now : Clock)
| ChatLeaveRoom (socket : SocketId) (roomId : RoomId) (now : Clock)
| VideoJoinRoom (socket : SocketId) (roomId : RoomId)
| VideoSendOffer (socket : SocketId) (offer : json) (to : SocketId)
| VideoSendAnswer (socket : SocketId) (answer : json) (to : SocketId)
| VideoIceCandidate (socket : SocketId) (candidate : json) (to : SocketId)
| VideoLeaveRoom (socket : SocketId) (roomId : RoomId)
| Disconnect (socket : SocketId) (now : Clock)
| SocketError (socket : SocketId) (error : json).

(** Socket.io puts a connecting socket in the room named by its id
    before it fires ['connection'], and takes a closing socket out of
    every room before it fires ['disconnect'].  [Connection] is a new
    connection; one that is recovered, and joins the rooms of its
    session first, is [Relay.recovers].  The arguments are of the types
    the handlers' documentation gives; what a handler does with a
    payload that is not there is in [socket_on]. *)
Definition handle (ev : Event) : M unit :=
  match ev with
  | ConnectError message => on_connect_error message
  | Connection socket transport origin userAgent =>
      socket_join socket socket ;;
      on_connection socket transport origin userAgent
  | UserJoin socket userData => on_user_join socket userData
  | ChatJoinRoom socket roomId now => on_chat_join_room socket roomId now
  | ChatSendMessage socket data now => on_chat_send_message socket data now
  | ChatLeaveRoom socket roomId now => on_chat_leave_room socket roomId now
  | VideoJoinRoom socket roomId => on_video_join_room socket roomId
  | VideoSendOffer socket offer to => on_video_send_offer socket offer to
  | VideoSendAnswer socket answer to => on_video_send_answer socket answer to
  | VideoIceCandidate socket candidate to =>
      on_video_ice_candidate socket candidate to
  | VideoLeaveRoom socket roomId => on_video_leave_room socket roomId
  | Disconnect socket now => socket_leaveAll socket ;; on_disconnect socket now
  | SocketError _ error => on_error error
  end.

(** The state after a handler, and what it did. *)
Definition after (ev : Event) (st : Server) : Server :=
  snd (fst (handle ev st)).
Definition effects (ev : Event) (st : Server) : list Effect :=
  snd (handle ev st).
Definition outcome (ev : Event) (st : Server) : Outcome unit :=
  fst (fst (handle ev st)).

(** A run of events, one handler after the other. *)
Fixpoint run (evs : list Event) (st : Server) : Server :=
  match evs with
  | [] => st
  | ev :: rest => run rest (after ev st)
  end.

(** [socket] receives [event] with [payload]. *)
Definition receives (socket : SocketId) (event : string) (payload : json)
    (out : list Effect) : Prop :=
  exists recipients,
    In (Emit event payload recipients) out /\ In socket recipients.

(** A socket is joined to a room when it is among the members Socket.io
    holds for it. *)
Definition joined (socket : SocketId) (room : RoomId) (st : Server) : Prop :=
  In socket (members room (rooms st)).

(** ** The HTTP routes *)

(** [app.get('/', ...)]: the body handed to [res.json]. *)
Definition get_root : M json :=
  st <- read (fun st => st) ;;
  ret (JObj [("message", JStr "Remote Work Platform API");
             ("version", JStr "1.0.0");
             ("status", JStr "running");
             ("activeUsers", JNum (JSMap.size (activeUsers st)));
             ("chatRooms", JNum (JSMap.size (chatRooms st)));
             ("videoRooms", JNum (JSMap.size (videoRooms st)))]).

(** [app.get('/api/health', ...)] *)
Definition get_health : M json :=
  ret (JObj [("status", JStr "healthy")]).

Record Route : Type := mkRoute {
  method : string;
  path : string;
  handler : M json
}.

(** The routes registered on [app], in source order. *)
Definition routes : list Route :=
  [ {| method := "GET"; path := "/"; handler := get_root |};
    {| method := "GET"; path := "/api/health"; handler := get_health |} ].

(** The handler registered for a method and a path pattern. *)
Definition registered (m p : string) : option (M json) :=
  option_map handler
    (find (fun r => ((method r =? m) && (path r =? p))%string) routes).

(** ** The options [new Server(httpServer, {...})] is given *)

Module Options.

Record Cors : Type := mkCors {
  origin : string;
  methods : list string;
  credentials : bool;
  allowEIO3 : bool
}.

Record Recovery : Type := mkRecovery {
  maxDisconnectionDuration : Z;
  skipMiddlewares : bool
}.

(** An option left out of the object literal is [None]. *)
Record t : Type := make {
  cors : option Cors;
  transports : option (list string);
  allowUpgrades : option bool;
  pingInterval : option Z;
  pingTimeout : option Z;
  maxHttpBufferSize : option Z;
  connectionStateRecovery : option Recovery;
  httpCompression : option Z;
  perMessageDeflate : option Z;
  cookie : option bool
}.

End Options.

(** [process.env.CLIENT_URL || 'http://localhost:5173'] *)
Definition client_url (CLIENT_URL : option string) : string :=
  match CLIENT_URL with
  | Some url => if (url =? "")%string then "http://localhost:5173" else url
  | None => "http://localhost:5173"
  end.

(** The object literal of the source; of its two [maxHttpBufferSize]
    keys the later one stands. *)
Definition io_options (CLIENT_URL : option string) : Options.t :=
  {| Options.cors :=
       Some {| Options.origin := client_url CLIENT_URL;
               Options.methods := ["GET"; "POST"];
               Options.credentials := true;
               Options.allowEIO3 := true |};
     Options.transports := Some ["websocket"; "polling"];
     Options.allowUpgrades := Some true;
     Options.pingInterval := Some 25000;
     Options.pingTimeout := Some 60000;
     Options.maxHttpBufferSize := Some 10000000;
     Options.connectionStateRecovery :=
       Some {| Options.maxDisconnectionDuration := 2 * 60 * 1000;
               Options.skipMiddlewares := true |};
     Options.httpCompression := Some 1024;
     Options.perMessageDeflate := Some 1024;
     Options.cookie := Some false |}.

(** Socket.io's own defaults for connection-state recovery, from the
    library's documentation: with the option left out the feature is
    off; with the option given, a field left out takes the value
    below. *)
Definition library_connectionStateRecovery : option Options.Recovery := None.

Definition library_recovery_fields : Options.Recovery :=
  {| Options.maxDisconnectionDuration := 2 * 60 * 1000;
     Options.skipMiddlewares := true |}.

(** ** Vocabulary of the properties *)

(** The three signalling events share one shape. *)
Inductive Signal : Type := Offer | Answer | Candidate.

Definition signal_event (k : Signal) (socket : SocketId) (body : json)
    (to : SocketId) : Event :=
  match k with
  | Offer => VideoSendOffer socket body to
  | Answer => VideoSendAnswer socket body to
  | Candidate => VideoIceCandidate socket body to
  end.

Definition signal_receive (k : Signal) : string :=
  match k with
  | Offer => "video:receive-offer"
  | Answer => "video:receive-answer"
  | Candidate => "video:ice-candidate"
  end.

Definition signal_key (k : Signal) : string :=
  match k with
  | Offer => "offer"
  | Answer => "answer"
  | Candidate => "candidate"
  end.

(** Joining and leaving, for either room map. *)
Definition join_event (w : RoomMap) (socket : SocketId) (room : RoomId)
    (now : Clock) : Event :=
  match w with
  | ChatRooms => ChatJoinRoom socket room now
  | VideoRooms => VideoJoinRoom socket room
  end.

Definition leave_event (w : RoomMap) (socket : SocketId) (room : RoomId)
    (now : Clock) : Event :=
  match w with
  | ChatRooms => ChatLeaveRoom socket room now
  | VideoRooms => VideoLeaveRoom socket room
  end.

(** [t] receives the ['chat:receive-message'] that a message sent by
    [socket] in state [st] triggers, with the content as sent. *)
Definition message_reaches (st : Server) (socket : SocketId)
    (data : MessageData.t) (now : Clock) (t : SocketId) : Prop :=
  exists payload,
    receives t "chat:receive-message" payload
      (effects (ChatSendMessage socket data now) st) /\
    field "message" payload = MessageData.message data /\
    field "roomId" payload = JStr (MessageData.roomId data).

(** A socket is alone in the room named by its id. *)
Definition own_room (socket : SocketId) (st : Server) : Prop :=
  forall t, joined t socket st <-> t = socket.

(** [socket] is in no Set of the map. *)
Definition in_no_room (socket : SocketId) (m : JSMap.t JSSet.t) : Prop :=
  forall room users, In (room, users) m -> JSSet.has socket users = false.

(** Every room the map holds has a member. *)
Definition rooms_nonempty (m : JSMap.t JSSet.t) : Prop :=
  forall room users, In (room, users) m -> users <> [].


Definition writes_chatRooms (ev : Event) : bool :=
  match ev with
  | ChatJoinRoom _ _ _ | ChatLeaveRoom _ _ _ | Disconnect _ _ => true
  | _ => false
  end.

Definition writes_videoRooms (ev : Event) : bool :=
  match ev with
  | VideoJoinRoom _ _ | VideoLeaveRoom _ _ | Disconnect _ _ => true
  | _ => false
  end.

Definition writes_rooms (ev : Event) : bool :=
  match ev with
  | Connection _ _ _ _ | Disconnect _ _
  | ChatJoinRoom _ _ _ | ChatLeaveRoom _ _ _
  | VideoJoinRoom _ _ | VideoLeaveRoom _ _ => true
  | _ => false
  end.

(** The map once [socket] is taken out of every Set, keys kept. *)
Definition without (socket : SocketId) (m : JSMap.t JSSet.t)
  : JSMap.t JSSet.t :=
  map (fun e => (fst e, JSSet.delete socket (snd e))) m.

(** One departure notice per room of [m] that held [socket], addressed
    through the room table [rs]. *)
Definition departures (socket : SocketId) (event : string) (payload : json)
    (m rs : JSMap.t JSSet.t) : list Effect :=
  map (fun e => Emit event payload (Adapter.targets (fst e) [socket] rs))
      (filter (fun e => JSSet.has socket (snd e)) m).

(** The value the first [event] emitted in [out] carries under [key]. *)
Fixpoint reported (event key : string) (out : list Effect) : json :=
  match out with
  | [] => JUndefined
  | Emit e payload _ :: rest =>
      if (e =? event)%string then field key payload
      else reported event key rest
  | Console _ _ :: rest => reported event key rest
  end.

(** A list stands for a [Map] of [Set]s when no key and no member
    occurs twice. *)
Definition tidy (m : JSMap.t JSSet.t) : Prop :=
  NoDup (JSMap.keys m) /\ forall k v, In (k, v) m -> NoDup v.

Definition well_formed (st : Server) : Prop :=
  NoDup (JSMap.keys (activeUsers st)) /\
  tidy (chatRooms st) /\ tidy (videoRooms st) /\ tidy (rooms st).

(** *** The statements under test, as they are worded *)

(** A chat message reaches every member of the room it names, the
    members of a chat room being the sockets [chatRooms] lists for it,
    and so the sender when it is one of them. *)
Definition broadcast_reaches_members (st : Server) (socket : SocketId)
    (data : MessageData.t) (now : Clock) : Prop :=
  forall t,
    In t (members (MessageData.roomId data) (chatRooms st)) ->
    message_reaches st socket data now t.

(** Disconnect takes the socket out of the three maps and tells the
    remaining members of each chat room and video room that held it. *)
Definition disconnect_removes_and_tells (st : Server) (socket : SocketId)
    (now : Clock) : Prop :=
  let st' := after (Disconnect socket now) st in
  let out := effects (Disconnect socket now) st in
  in_no_room socket (chatRooms st') /\
  in_no_room socket (videoRooms st') /\
  JSMap.has socket (activeUsers st') = false /\
  (forall room users t,
     In (room, users) (chatRooms st) -> JSSet.has socket users = true ->
     In t users -> t <> socket ->
     exists payload, receives t "chat:user-left" payload out) /\
  (forall room users t,
     In (room, users) (videoRooms st) -> JSSet.has socket users = true ->
     In t users -> t <> socket ->
     exists payload, receives t "video:user-left" payload out).

(** A join puts the socket in the room's Set, tells every other socket
    of the room, and tells the joiner the size of the Set. *)
Definition join_adds_and_announces (st : Server) (socket : SocketId)
    (room : RoomId) (now : Clock) : Prop :=
  let st' := after (ChatJoinRoom socket room now) st in
  let out := effects (ChatJoinRoom socket room now) st in
  exists users,
    JSMap.get room (chatRooms st') = Some users /\
    In socket users /\
    (forall t, t <> socket -> joined t room st' ->
       exists payload, receives t "chat:user-joined" payload out) /\
    receives socket "chat:room-joined"
      (JObj [("roomId", JStr room); ("userCount", JNum (JSSet.size users))])
      out.

(** A signalling message reaches its target, with the body untouched
    and the sender named, and nobody else. *)
Definition signal_point_to_point (st : Server) (k : Signal)
    (socket : SocketId) (body : json) (to : SocketId) : Prop :=
  let out := effects (signal_event k socket body to) st in
  (exists payload,
     receives to (signal_receive k) payload out /\
     field (signal_key k) payload = body /\
     field "from" payload = JStr socket) /\
  (forall t payload,
     receives t (signal_receive k) payload out -> t = to).


(** The server is built with the library's own connection-state
    recovery setting. *)
Definition recovery_left_at_default : Prop :=
  forall CLIENT_URL,
    Options.connectionStateRecovery (io_options CLIENT_URL) =
    library_connectionStateRecovery.

(** ** Sample runs *)

Definition noon : Clock :=
  {| ms := 1700000000000; iso := "2023-11-14T22:13:20.000Z" |}.

Definition connect (socket : SocketId) : Event :=
  Connection socket "websocket" (JStr "http://localhost:5173")
    (JStr "Mozilla/5.0").

Definition ada : UserData.t :=
  {| UserData.userId := JStr "u-1"; UserData.username := JStr "Ada";
     UserData.email := JStr "ada@example.org" |}.

Definition hello : MessageData.t :=
  {| MessageData.roomId := "W"; MessageData.message := JStr "hello";
     MessageData.userId := JStr "u-1"; MessageData.username := JStr "Ada" |}.

(** Two clients in the chat of workspace [W]. *)
Definition in_chat : Server :=
  run [connect "a1"; connect "b2";
       ChatJoinRoom "a1" "W" noon; ChatJoinRoom "b2" "W" noon] boot.

(** The first of them then joins, and leaves, the video call of the
    workspace, which the client names [W] too. *)
Definition after_call : Server :=
  run [VideoJoinRoom "a1" "W"; VideoLeaveRoom "a1" "W"] in_chat.

(** A client that has left the room named by its own id. *)
Definition left_own_room : Server :=
  run [connect "a1"; ChatLeaveRoom "a1" "a1" noon] boot.

(** A second client that has joined the room named by the first one's
    id. *)
Definition eavesdropper : Server :=
  run [connect "a1"; connect "b2"; connect "c3"; ChatJoinRoom "b2" "a1" noon]
      boot.

(** Two connected clients, one of them in chat room [W]. *)
Definition one_in_chat : Server :=
  run [connect "a1"; UserJoin "a1" ada; connect "b2";
       ChatJoinRoom "a1" "W" noon] boot.

(** Two connected clients, both in chat room [W] and video room [V]. *)
Definition two_in_rooms : Server :=
  run [connect "a1"; UserJoin "a1" ada; connect "b2";
       ChatJoinRoom "a1" "W" noon; ChatJoinRoom "b2" "W" noon;
       VideoJoinRoom "a1" "V"; VideoJoinRoom "b2" "V"] boot.

(** ** Connected sockets along a run *)

(** The socket an event comes from; ['connect_error'] comes from none. *)
Definition event_socket (ev : Event) : option SocketId :=
  match ev with
  | ConnectError _ => None
  | Connection s _ _ _ | UserJoin s _ | ChatJoinRoom s _ _
  | ChatSendMessage s _ _ | ChatLeaveRoom s _ _ | VideoJoinRoom s _
  | VideoSendOffer s _ _ | VideoSendAnswer s _ _ | VideoIceCandidate s _ _
  | VideoLeaveRoom s _ | Disconnect s _ | SocketError s _ => Some s
  end.

(** The room an event names. *)
Definition event_room (ev : Event) : option RoomId :=
  match ev with
  | ChatJoinRoom _ R _ | ChatLeaveRoom _ R _
  | VideoJoinRoom _ R | VideoLeaveRoom _ R => Some R
  | _ => None
  end.

(** The connected sockets once the event is handled. *)
Definition live_after (ev : Event) (live : JSSet.t) : JSSet.t :=
  match ev with
  | Connection s _ _ _ => JSSet.add s live
  | Disconnect s _ => JSSet.delete s live
  | _ => live
  end.

(** What Socket.io lets through: a socket connects under an id no
    connected socket has, and a handler registered on a socket runs only
    while that socket is connected.  [Connection] is a new connection;
    one that Socket.io recovers together with its rooms is
    [Relay.Recovers] below. *)
Definition admitted (ev : Event) (live : JSSet.t) : bool :=
  match ev with
  | ConnectError _ => true
  | Connection s _ _ _ => negb (JSSet.has s live)
  | _ =>
      match event_socket ev with
      | Some s => JSSet.has s live
      | None => true
      end
  end.

(** Room names kept apart from socket ids: no client joins or leaves a
    room named by a connected socket's id, and a socket connects under
    an id that names no room yet. *)
Definition well_named (ev : Event) (live : JSSet.t) (st : Server) : bool :=
  match ev with
  | Connection s _ _ _ => negb (JSMap.has s (rooms st))
  | _ =>
      match event_room ev with
      | Some R => negb (JSSet.has R live)
      | None => true
      end
  end.

(** Every member of every Set of the map is connected. *)
Definition all_live (live : JSSet.t) (m : JSMap.t JSSet.t) : Prop :=
  forall R users t, In (R, users) m -> In t users -> In t live.

(** Everybody the state knows of is connected. *)
Definition no_ghosts (live : JSSet.t) (st : Server) : Prop :=
  (forall s u, In (s, u) (activeUsers st) -> In s live) /\
  all_live live (chatRooms st) /\
  all_live live (videoRooms st) /\
  all_live live (rooms st).

(** Whoever is joined to a Socket.io room is the socket the room is
    named after, or is listed for the room in [chatRooms] or in
    [videoRooms]. *)
Definition mirrored (st : Server) : Prop :=
  forall R t,
    joined t R st ->
    t = R \/ In t (members R (chatRooms st)) \/
    In t (members R (videoRooms st)).

(** ** Socket.io with connection-state recovery

    The relay switches connection-state recovery on, and Socket.io then
    keeps more than the room table: the sockets that are connected, the
    rooms of each socket in the order it joined them, a session for each
    socket whose connection dropped, and a log of every packet that was
    broadcast.  A client that comes back in time, naming the last packet
    it saw, gets its socket id and its rooms back and is sent what it
    missed.  This is the library, not the relay's sources; it is
    described here as far as the relay's handlers and their emits drive
    it. *)

(** The event name and payload of each emit, in order. *)
Fixpoint emits (out : list Effect) : list (string * json) :=
  match out with
  | [] => []
  | Emit e payload _ :: rest => (e, payload) :: emits rest
  | Console _ _ :: rest => emits rest
  end.


(** The room and the excepted rooms each emit of a handler is addressed
    with ([io.to(room)] excepts nothing, [socket.to(room)] the room of
    the socket's id), in the order of the emits. *)
Definition addressed (ev : Event) (st : Server)
  : list (RoomId * list RoomId) :=
  match ev with
  | ChatJoinRoom s R _ => [(R, [s]); (s, [])]
  | ChatSendMessage _ data _ => [(MessageData.roomId data, [])]
  | ChatLeaveRoom s R _ => [(R, [s])]
  | VideoJoinRoom s R => [(s, []); (R, [s])]
  | VideoSendOffer _ _ to => [(to, [])]
  | VideoSendAnswer _ _ to => [(to, [])]
  | VideoIceCandidate _ _ to => [(to, [])]
  | VideoLeaveRoom s R => [(R, [s])]
  | Disconnect s _ =>
      (map (fun e : RoomId * JSSet.t => (fst e, [s]))
         (filter (fun e => JSSet.has s (snd e)) (chatRooms st)) ++
       map (fun e : RoomId * JSSet.t => (fst e, [s]))
         (filter (fun e => JSSet.has s (snd e)) (videoRooms st)))%list
  | _ => []
  end.

Module Relay.

(** What the adapter keeps of a dropped socket: its rooms and the time
    it dropped.  Sessions are kept under the socket's private id, which
    goes one to one with the socket id and is not told apart from it
    here; [socket.data], which no handler writes, is left out. *)
Record Session : Type := mkSession {
  held : list RoomId;
  disconnectedAt : Z
}.

(** A broadcast packet in the adapter's log: [{ id, opts, data,
    emittedAt }].  Ids are the adapter's own, unique and handed out in
    order; a counter stands for them. *)
Record Persisted : Type := mkPersisted {
  id : nat;
  event : string;
  payload : json;
  room : RoomId;
  except : list RoomId;
  emittedAt : Z
}.

Record t : Type := make {
  server : Server;
  sockets : JSSet.t;
  sids : JSMap.t (list RoomId);
  sessions : JSMap.t Session;
  packets : list Persisted;
  next : nat
}.

(** What a process holds once the module's top level has run:
    [new Map()] three times and [new Server(httpServer, {...})], whose
    adapter is empty.  Nothing is read from a store or from an earlier
    process. *)
Definition boot : t :=
  {| server := boot; sockets := JSSet.empty; sids := JSMap.empty;
     sessions := JSMap.empty; packets := []; next := 0%nat |}.


(** [connectionStateRecovery.maxDisconnectionDuration] as the server is
    built. *)
Definition window : Z :=
  match Options.connectionStateRecovery (io_options None) with
  | Some recovery => Options.maxDisconnectionDuration recovery
  | None => 0
  end.

(** [socket.rooms] *)
Definition socket_rooms (s : SocketId) (m : JSMap.t (list RoomId))
  : list RoomId :=
  match JSMap.get s m with Some l => l | None => [] end.

(** The adapter's [sids] under the joins and leaves of a handler. *)
Definition sids_after (ev : Event) (m : JSMap.t (list RoomId))
  : JSMap.t (list RoomId) :=
  match ev with
  | Connection s _ _ _ => JSMap.set s (JSSet.add s (socket_rooms s m)) m
  | ChatJoinRoom s R _ | VideoJoinRoom s R =>
      JSMap.set s (JSSet.add R (socket_rooms s m)) m
  | ChatLeaveRoom s R _ | VideoLeaveRoom s R =>
      match JSMap.get s m with
      | Some l => JSMap.set s (JSSet.delete R l) m
      | None => m
      end
  | Disconnect s _ => JSMap.delete s m
  | _ => m
  end.

(** The log entries of a handler's emits, numbered from [n]. *)
Fixpoint entries (at_ : Z) (n : nat) (es : list (string * json))
    (opts : list (RoomId * list RoomId)) : list Persisted :=
  match es, opts with
  | (e, p) :: es', (R, ex) :: opts' =>
      {| id := n; event := e; payload := p; room := R; except := ex;
         emittedAt := at_ |} :: entries at_ (S n) es' opts'
  | _, _ => []
  end.

(** What happens at the relay, each with the adapter's reading of
    [Date.now()]. *)
Inductive Occurrence : Type :=
| Handles (at_ : Z) (ev : Event)
| Drops (at_ : Z) (socket : SocketId) (now : Clock)
| Recovers (at_ : Z) (socket : SocketId) (offset : nat)
    (transport : string) (origin userAgent : json)
| Sweeps (at_ : Z).

(** A handler runs: its emits go to the log as well.  With
    [Disconnect] this is a close that cannot be recovered from (the
    client or the server disconnected the socket): no session is
    kept. *)
Definition handles (at_ : Z) (ev : Event) (r : t) : t * list Effect :=
  let st := server r in
  let new := entries at_ (next r) (emits (effects ev st)) (addressed ev st) in
  ({| server := after ev st;
      sockets := live_after ev (sockets r);
      sids := sids_after ev (sids r);
      sessions := sessions r;
      packets := (packets r ++ new)%list;
      next := (next r + List.length new)%nat |},
   effects ev st).

(** A connection drops (transport closed or in error, ping timed out,
    server shutting down): the adapter keeps the session, then the
    socket leaves its rooms and ['disconnect'] fires. *)
Definition drops (at_ : Z) (s : SocketId) (now : Clock) (r : t)
  : t * list Effect :=
  handles at_ (Disconnect s now)
    {| server := server r; sockets := sockets r; sids := sids r;
       sessions :=
         JSMap.set s {| held := socket_rooms s (sids r);
                        disconnectedAt := at_ |} (sessions r);
       packets := packets r; next := next r |}.

(** The packets after the one a client saw last; none when the log no
    longer holds that one. *)
Fixpoint after_offset (offset : nat) (ps : list Persisted)
  : option (list Persisted) :=
  match ps with
  | [] => None
  | p :: rest =>
      if Nat.eqb (id p) offset then Some rest else after_offset offset rest
  end.

(** [shouldIncludePacket]: sent to one of the session's rooms, and none
    of the session's rooms excepted. *)
Definition missed (session : Session) (p : Persisted) : bool :=
  existsb (String.eqb (room p)) (held session) &&
  forallb (fun R => negb (JSSet.has R (except p))) (held session).

(** [restoreSession(pid, offset)]: the session and the packets to send
    again, or nothing when there is no session, the session is too old
    (it is then dropped), or the offset is not in the log. *)
Definition restoreSession (at_ : Z) (s : SocketId) (offset : nat) (r : t)
  : t * option (Session * list Persisted) :=
  match JSMap.get s (sessions r) with
  | None => (r, None)
  | Some session =>
      if disconnectedAt session + window <? at_ then
        ({| server := server r; sockets := sockets r; sids := sids r;
            sessions := JSMap.delete s (sessions r);
            packets := packets r; next := next r |}, None)
      else
        match after_offset offset (packets r) with
        | None => (r, None)
        | Some later => (r, Some (session, filter (missed session) later))
        end
  end.

(** The socket of a restored session joins the session's rooms. *)
Definition rejoin (s : SocketId) (rooms_held : list RoomId)
    (rs : JSMap.t JSSet.t) : JSMap.t JSSet.t :=
  fold_left (fun acc R => Adapter.addAll s R acc) rooms_held rs.

(** A client comes back with its private id and the offset of the last
    packet it saw.  When the session is restored the socket is built
    with its former id, joins its former rooms and is sent the packets
    it missed; then, as for any socket, it joins the room of its id and
    ['connection'] fires.  When it is not, nothing of this happens (the
    client then gets a new connection, a [Handles] of [Connection]
    under a new id). *)
Definition recovers (at_ : Z) (s : SocketId) (offset : nat)
    (transport : string) (origin userAgent : json) (r : t)
  : t * list Effect :=
  match restoreSession at_ s offset r with
  | (r1, None) => (r1, [])
  | (r1, Some (session, again)) =>
      let st := with_rooms (rejoin s (held session) (rooms (server r1)))
                  (server r1) in
      let ev := Connection s transport origin userAgent in
      ({| server := after ev st;
          sockets := JSSet.add s (sockets r1);
          sids := JSMap.set s
                    (JSSet.add s (fold_left (fun l R => JSSet.add R l)
                                    (held session)
                                    (socket_rooms s (sids r1))))
                    (sids r1);
          sessions := sessions r1;
          packets := packets r1;
          next := next r1 |},
       (map (fun p => Emit (event p) (payload p) [s]) again
        ++ effects ev st)%list)
  end.

(** The log without its packets up to the last one older than
    [threshold]. *)
Fixpoint unexpired (threshold : Z) (ps : list Persisted) : list Persisted :=
  match ps with
  | [] => []
  | p :: rest =>
      if existsb (fun q => emittedAt q <? threshold) (p :: rest)
      then unexpired threshold rest
      else p :: rest
  end.

(** The adapter's timer: sessions and packets older than the window
    go. *)
Definition sweeps (at_ : Z) (r : t) : t * list Effect :=
  ({| server := server r; sockets := sockets r; sids := sids r;
      sessions :=
        filter (fun e : string * Session =>
                  negb (disconnectedAt (snd e) <? at_ - window))
               (sessions r);
      packets := unexpired (at_ - window) (packets r);
      next := next r |}, []).

Definition step (o : Occurrence) (r : t) : t * list Effect :=
  match o with
  | Handles at_ ev => handles at_ ev r
  | Drops at_ s now => drops at_ s now r
  | Recovers at_ s offset transport origin userAgent =>
      recovers at_ s offset transport origin userAgent r
  | Sweeps at_ => sweeps at_ r
  end.

Fixpoint run (os : list Occurrence) (r : t) : t :=
  match os with
  | [] => r
  | o :: rest => run rest (fst (step o r))
  end.

(** What Socket.io lets through: handlers run for connected sockets, a
    connection that drops was connected, and one that comes back is not
    connected. *)
Definition admitted (o : Occurrence) (r : t) : bool :=
  match o with
  | Handles _ ev => admitted ev (sockets r)
  | Drops _ s _ => JSSet.has s (sockets r)
  | Recovers _ s _ _ _ _ => negb (JSSet.has s (sockets r))
  | Sweeps _ => true
  end.

Fixpoint admissible (os : list Occurrence) (r : t) : bool :=
  match os with
  | [] => true
  | o :: rest => admitted o r && admissible rest (fst (step o r))
  end.

(** Room names kept apart from socket ids, at every step: no client
    joins or leaves a room named by a connected socket's id; a socket
    connects, or comes back, under an id that names no room; and the
    rooms a socket comes back to are not named by another connected
    socket's id. *)
Definition well_named (o : Occurrence) (r : t) : bool :=
  match o with
  | Handles _ ev => well_named ev (sockets r) (server r)
  | Recovers _ s _ _ _ _ =>
      negb (JSMap.has s (rooms (server r))) &&
      forallb (fun R => (R =? s)%string || negb (JSSet.has R (sockets r)))
              (match JSMap.get s (sessions r) with
               | Some session => held session
               | None => []
               end)
  | _ => true
  end.

Fixpoint disciplined (os : list Occurrence) (r : t) : bool :=
  match os with
  | [] => true
  | o :: rest =>
      admitted o r && well_named o r && disciplined rest (fst (step o r))
  end.

(** No connection is recovered. *)
Definition always_new (os : list Occurrence) : bool :=
  forallb (fun o => match o with Recovers _ _ _ _ _ _ => false | _ => true end)
          os.

End Relay.

(** A connection that drops and comes back: [a1] and [b2] are in the
    chat of [W]; [a1]'s connection drops, [b2] writes, and [a1] comes
    back two seconds later, having last seen the packet that told it of
    [b2]'s joining. *)
Definition drop : list Relay.Occurrence :=
  [Relay.Handles 1700000000000 (connect "a1");
   Relay.Handles 1700000000100 (connect "b2");
   Relay.Handles 1700000000200 (ChatJoinRoom "a1" "W" noon);
   Relay.Handles 1700000000300 (ChatJoinRoom "b2" "W" noon);
   Relay.Drops 1700000001000 "a1" noon].

Definition dropped : list Relay.Occurrence :=
  (drop ++ [Relay.Handles 1700000002000 (ChatSendMessage "b2" hello noon)])
  %list.

Definition returns : Relay.Occurrence :=
  Relay.Recovers 1700000003000 "a1" 2 "websocket"
    (JStr "http://localhost:5173") (JStr "Mozilla/5.0").

Definition comeback : list Relay.Occurrence := (dropped ++ [returns])%list.

(** The payload of the first [event] emitted in [out]. *)
Fixpoint emitted (event : string) (out : list Effect) : option json :=
  match out with
  | [] => None
  | Emit e payload _ :: rest =>
      if (e =? event)%string then Some payload else emitted event rest
  | Console _ _ :: rest => emitted event rest
  end.

(** The name under which each room map's departures are announced. *)
Definition user_left (w : RoomMap) : string :=
  match w with
  | ChatRooms => "chat:user-left"
  | VideoRooms => "video:user-left"
  end.

Definition other_map (w : RoomMap) : RoomMap :=
  match w with ChatRooms => VideoRooms | VideoRooms => ChatRooms end.

(** The [socketId] fields of a ['video:all-users'] payload. *)
Definition socket_ids (payload : json) : list json :=
  match payload with
  | JArr items => map (field "socketId") items
  | _ => []
  end.

(** ** The client's socket service

    [SocketService] of the frontend: the wrappers through which the
    components emit.  A wrapper hands [this.socket.emit] one packet, an
    event name and its argument, when there is a socket, and does
    nothing when [this.socket] is [null]. *)

Definition Packet : Type := string * json.

Module SocketService.

(** [this.socket] is [null] or a Socket.io client socket, of which the
    service looks at [connected] alone; [this.connected] is the service's
    own flag. *)
Record t : Type := make {
  socket : option bool;
  connected : bool
}.

(** The constructor. *)
Definition new : t := {| socket := None; connected := false |}.

(** [if (this.socket) { this.socket.emit(event, arg) }] *)
Definition emit_if_socket (svc : t) (event : string) (arg : json)
  : list Packet :=
  match socket svc with
  | Some _ => [(event, arg)]
  | None => []
  end.

Definition joinChatRoom (roomId : RoomId) (svc : t) : list Packet :=
  emit_if_socket svc "chat:join-room" (JStr roomId).

Definition leaveChatRoom (roomId : RoomId) (svc : t) : list Packet :=
  emit_if_socket svc "chat:leave-room" (JStr roomId).

Definition sendMessage (roomId : RoomId) (message userId username : json)
    (svc : t) : list Packet :=
  emit_if_socket svc "chat:send-message"
    (JObj [("roomId", JStr roomId); ("message", message);
           ("userId", userId); ("username", username)]).

Definition joinVideoRoom (roomId : RoomId) (svc : t) : list Packet :=
  emit_if_socket svc "video:join-room" (JStr roomId).

Definition leaveVideoRoom (roomId : RoomId) (svc : t) : list Packet :=
  emit_if_socket svc "video:leave-room" (JStr roomId).

Definition sendOffer (offer : json) (to : SocketId) (svc : t) : list Packet :=
  emit_if_socket svc "video:send-offer"
    (JObj [("offer", offer); ("to", JStr to)]).

Definition sendAnswer (answer : json) (to : SocketId) (svc : t)
  : list Packet :=
  emit_if_socket svc "video:send-answer"
    (JObj [("answer", answer); ("to", JStr to)]).

Definition sendIceCandidate (candidate : json) (to : SocketId) (svc : t)
  : list Packet :=
  emit_if_socket svc "video:ice-candidate"
    (JObj [("candidate", candidate); ("to", JStr to)]).

(** The ['connect'] listener [connect(userData)] registers on the
    socket: the flag is set and, when there is user data, it is sent.
    The listener reads [this.socket] unguarded after it has set the
    flag, so it throws ([None]) when the socket has been dropped in the
    meantime. *)
Definition on_connect (userData : json) (svc : t)
  : t * option (list Packet) :=
  ({| socket := socket svc; connected := true |},
   match socket svc with
   | Some _ =>
       Some (if truthy userData then [("user:join", userData)] else [])
   | None => None
   end).

(** [disconnect()]: the socket is dropped and the flag reset; nothing
    changes when there is no socket. *)
Definition disconnect (svc : t) : t :=
  match socket svc with
  | Some _ => {| socket := None; connected := false |}
  | None => svc
  end.

(** [isConnected()]: [this.connected && this.socket?.connected], which
    is [undefined] when the flag is set and the socket is [null]. *)
Definition isConnected (svc : t) : json :=
  if connected svc then
    match socket svc with
    | Some c => JBool c
    | None => JUndefined
    end
  else JBool false.

End SocketService.

(** The calls a component makes on the service. *)
Inductive Request : Type :=
| JoinChatRoom (roomId : RoomId)
| LeaveChatRoom (roomId : RoomId)
| SendMessage (roomId : RoomId) (message userId username : json)
| JoinVideoRoom (roomId : RoomId)
| LeaveVideoRoom (roomId : RoomId)
| SendOffer (offer : json) (to : SocketId)
| SendAnswer (answer : json) (to : SocketId)
| SendIceCandidate (candidate : json) (to : SocketId).

Definition call (r : Request) (svc : SocketService.t) : list Packet :=
  match r with
  | JoinChatRoom roomId => SocketService.joinChatRoom roomId svc
  | LeaveChatRoom roomId => SocketService.leaveChatRoom roomId svc
  | SendMessage roomId message userId username =>
      SocketService.sendMessage roomId message userId username svc
  | JoinVideoRoom roomId => SocketService.joinVideoRoom roomId svc
  | LeaveVideoRoom roomId => SocketService.leaveVideoRoom roomId svc
  | SendOffer offer to => SocketService.sendOffer offer to svc
  | SendAnswer answer to => SocketService.sendAnswer answer to svc
  | SendIceCandidate candidate to =>
      SocketService.sendIceCandidate candidate to svc
  end.

(** ** The relay's listeners for the client's events

    [socket.on(name, handler)] as the connection handler registers them
    for the events a client emits: which handler a packet from [socket]
    runs, and with which arguments.  A handler that reads a field of
    its payload, or takes the payload apart, throws a [TypeError] before
    it does anything else when the payload is [undefined] or [null]:
    [Throws].  [Outside] stands for what the handlers as they are
    embedded here do not describe: a room id or a target that is no
    string, and every other event name. *)

Inductive Dispatch : Type :=
| Runs (ev : Event)
| Throws
| Outside.

(** [const { roomId, ... } = data], [({ offer, to }) => ...] and
    [userData.userId]: the payload has to be there. *)
Definition with_payload (arg : json) (k : Dispatch) : Dispatch :=
  match arg with
  | JUndefined | JNull => Throws
  | _ => k
  end.

Definition string_arg (v : json) (k : string -> Event) : Dispatch :=
  match v with
  | JStr s => Runs (k s)
  | _ => Outside
  end.

Definition socket_on (socket : SocketId) (now : Clock) (p : Packet)
  : Dispatch :=
  let arg := snd p in
  let name := fst p in
  if (name =? "user:join")%string then
    with_payload arg
      (Runs (UserJoin socket
               {| UserData.userId := field "userId" arg;
                  UserData.username := field "username" arg;
                  UserData.email := field "email" arg |}))
  else if (name =? "chat:join-room")%string then
    string_arg arg (fun roomId => ChatJoinRoom socket roomId now)
  else if (name =? "chat:send-message")%string then
    with_payload arg
      (string_arg (field "roomId" arg) (fun roomId =>
         ChatSendMessage socket
           {| MessageData.roomId := roomId;
              MessageData.message := field "message" arg;
              MessageData.userId := field "userId" arg;
              MessageData.username := field "username" arg |} now))
  else if (name =? "chat:leave-room")%string then
    string_arg arg (fun roomId => ChatLeaveRoom socket roomId now)
  else if (name =? "video:join-room")%string then
    string_arg arg (fun roomId => VideoJoinRoom socket roomId)
  else if (name =? "video:send-offer")%string then
    with_payload arg
      (string_arg (field "to" arg) (fun to =>
         VideoSendOffer socket (field "offer" arg) to))
  else if (name =? "video:send-answer")%string then
    with_payload arg
      (string_arg (field "to" arg) (fun to =>
         VideoSendAnswer socket (field "answer" arg) to))
  else if (name =? "video:ice-candidate")%string then
    with_payload arg
      (string_arg (field "to" arg) (fun to =>
         VideoIceCandidate socket (field "candidate" arg) to))
  else if (name =? "video:leave-room")%string then
    string_arg arg (fun roomId => VideoLeaveRoom socket roomId)
  else Outside.

(** The handler each call of the client is meant for. *)
Definition meant (r : Request) (socket : SocketId) (now : Clock) : Event :=
  match r with
  | JoinChatRoom roomId => ChatJoinRoom socket roomId now
  | LeaveChatRoom roomId => ChatLeaveRoom socket roomId now
  | SendMessage roomId message userId username =>
      ChatSendMessage socket
        {| MessageData.roomId := roomId; MessageData.message := message;
           MessageData.userId := userId; MessageData.username := username |}
        now
  | JoinVideoRoom roomId => VideoJoinRoom socket roomId
  | LeaveVideoRoom roomId => VideoLeaveRoom socket roomId
  | SendOffer offer to => VideoSendOffer socket offer to
  | SendAnswer answer to => VideoSendAnswer socket answer to
  | SendIceCandidate candidate to => VideoIceCandidate socket candidate to
  end.

(** ** The chat panel's send

    [handleSendMessage] of the [Chat] component, from the trimmed text
    on ([trimmed] stands for [newMessage.trim()]). *)

(** [s.split('@')[0]] *)
Fixpoint before_at (s : string) : string :=
  match s with
  | EmptyString => EmptyString
  | String c rest =>
      if Ascii.eqb c "@"%char then EmptyString else String c (before_at rest)
  end.



(** ** The identity a client announces

    [connectSocket] of the authentication context: the user data handed
    to [socketService.connect], from the fields of the Supabase user
    ([user.id], [user.user_metadata?.username], [user.email]). *)
Definition connectSocket (user_id metadata_username : json)
    (email : option string) : json :=
  JObj [("userId", user_id);
        ("username",
         js_or
           (js_or metadata_username
              (match email with
               | Some e => JStr (before_at e)
               | None => JUndefined
               end))
           (JStr "User"));
        ("email",
         match email with Some e => JStr e | None => JUndefined end)].

(** * Properties *)

(** ** Sets *)

Module JSSetFacts.

Lemma has_In (x : string) (s : JSSet.t) : JSSet.has x s = true <-> In x s.
Proof.
  unfold JSSet.has. rewrite existsb_exists. split.
  - intros [y [Hy Heq]]. apply String.eqb_eq in Heq. now subst.
  - intros H. exists x. split; [assumption | apply String.eqb_refl].
Qed.

Lemma has_false (x : string) (s : JSSet.t) :
  JSSet.has x s = false <-> ~ In x s.
Proof.
  rewrite <- has_In. destruct (JSSet.has x s); split; intros H;
    try reflexivity; try discriminate; try (intros H'; discriminate).
  exfalso. now apply H.
Qed.

Lemma add_has (x : string) (s : JSSet.t) :
  JSSet.has x s = true -> JSSet.add x s = s.
Proof. intros H. unfold JSSet.add. now rewrite H. Qed.

Lemma In_add (x y : string) (s : JSSet.t) :
  In y (JSSet.add x s) <-> y = x \/ In y s.
Proof.
  unfold JSSet.add. destruct (JSSet.has x s) eqn:Hx.
  - apply has_In in Hx. split; [now right | intros [-> | H]; assumption].
  - rewrite in_app_iff. simpl. intuition congruence.
Qed.

Lemma has_add_same (x : string) (s : JSSet.t) :
  JSSet.has x (JSSet.add x s) = true.
Proof. apply has_In, In_add. now left. Qed.

Lemma In_delete (x y : string) (s : JSSet.t) :
  In y (JSSet.delete x s) <-> In y s /\ y <> x.
Proof.
  unfold JSSet.delete. rewrite filter_In. split.
  - intros [Hin Hneq]. split; [assumption |].
    intros ->. now rewrite String.eqb_refl in Hneq.
  - intros [Hin Hneq]. split; [assumption |].
    destruct (String.eqb_spec x y); [congruence | reflexivity].
Qed.

Lemma has_delete_same (x : string) (s : JSSet.t) :
  JSSet.has x (JSSet.delete x s) = false.
Proof. apply has_false. rewrite In_delete. tauto. Qed.

Lemma delete_absent (x : string) (s : JSSet.t) :
  JSSet.has x s = false -> JSSet.delete x s = s.
Proof.
  intros H. apply has_false in H. unfold JSSet.delete.
  induction s as [| y s IH]; [reflexivity |]. simpl.
  destruct (String.eqb_spec x y) as [-> | Hne].
  - exfalso. apply H. now left.
  - simpl. f_equal. apply IH. intros Hin. apply H. now right.
Qed.

Lemma size_zero (s : JSSet.t) : (JSSet.size s =? 0) = true <-> s = [].
Proof.
  unfold JSSet.size. rewrite Z.eqb_eq. destruct s; simpl; split;
    intros H; try reflexivity; try discriminate; lia.
Qed.

(** Deleting the one member there is leaves nothing. *)
Lemma delete_last (x : string) (s : JSSet.t) :
  (forall y, In y s -> y = x) -> JSSet.delete x s = [].
Proof.
  intros H. destruct (JSSet.delete x s) as [| y rest] eqn:E; [reflexivity |].
  assert (Hy : In y (JSSet.delete x s)) by (rewrite E; now left).
  apply In_delete in Hy. destruct Hy as [Hin Hne]. now apply H in Hin.
Qed.

End JSSetFacts.

(** ** Maps *)

Module JSMapFacts.

Section WithValues.
Context {V : Type}.
Implicit Types (m : JSMap.t V) (k : string) (v : V).

Lemma get_set_same k v m : JSMap.get k (JSMap.set k v m) = Some v.
Proof.
  induction m as [| [k' v'] m IH]; simpl.
  - now rewrite String.eqb_refl.
  - destruct (String.eqb_spec k k') as [-> | Hne]; simpl.
    + now rewrite String.eqb_refl.
    + destruct (String.eqb_spec k k'); [contradiction | exact IH].
Qed.

Lemma get_set_other k k' v m :
  k <> k' -> JSMap.get k' (JSMap.set k v m) = JSMap.get k' m.
Proof.
  intros Hne. induction m as [| [k0 v0] m IH]; simpl.
  - destruct (String.eqb_spec k' k); [congruence | reflexivity].
  - destruct (String.eqb_spec k k0) as [-> | Hk]; simpl.
    + destruct (String.eqb_spec k' k0); [congruence | reflexivity].
    + destruct (String.eqb_spec k' k0); [reflexivity | exact IH].
Qed.

Lemma set_set k v v' m : JSMap.set k v (JSMap.set k v' m) = JSMap.set k v m.
Proof.
  induction m as [| [k0 v0] m IH]; simpl.
  - now rewrite String.eqb_refl.
  - destruct (String.eqb_spec k k0) as [-> | Hk]; simpl.
    + now rewrite String.eqb_refl.
    + destruct (String.eqb_spec k k0); [contradiction | now rewrite IH].
Qed.

(** Storing again what is stored changes nothing. *)
Lemma set_get k v m : JSMap.get k m = Some v -> JSMap.set k v m = m.
Proof.
  induction m as [| [k0 v0] m IH]; simpl; [discriminate |].
  destruct (String.eqb_spec k k0) as [-> | Hk].
  - now intros [= ->].
  - intros H. now rewrite IH.
Qed.

Lemma has_get k m : JSMap.has k m = true <-> exists v, JSMap.get k m = Some v.
Proof.
  unfold JSMap.has. destruct (JSMap.get k m) as [v |]; split.
  - intros _. now exists v.
  - reflexivity.
  - discriminate.
  - intros [v H]. discriminate.
Qed.

Lemma has_false_get k m : JSMap.has k m = false <-> JSMap.get k m = None.
Proof.
  unfold JSMap.has. destruct (JSMap.get k m); split; congruence.
Qed.

Lemma get_In k v m : JSMap.get k m = Some v -> In (k, v) m.
Proof.
  induction m as [| [k0 v0] m IH]; simpl; [discriminate |].
  destruct (String.eqb_spec k k0) as [-> | Hk].
  - intros [= ->]. now left.
  - intros H. right. now apply IH.
Qed.

Lemma In_has k v m : In (k, v) m -> JSMap.has k m = true.
Proof.
  intros H. apply has_get. induction m as [| [k0 v0] m IH]; [contradiction |].
  simpl. destruct (String.eqb_spec k k0) as [-> | Hk]; [now exists v0 |].
  destruct H as [[= E1 E2] | H]; [congruence | now apply IH].
Qed.

Lemma get_delete_same k m : JSMap.get k (JSMap.delete k m) = None.
Proof.
  unfold JSMap.delete. induction m as [| [k0 v0] m IH]; [reflexivity |].
  simpl. destruct (String.eqb_spec k k0) as [-> | Hk]; simpl; [exact IH |].
  destruct (String.eqb_spec k k0); [contradiction | exact IH].
Qed.

Lemma get_delete_other k k' m :
  k <> k' -> JSMap.get k' (JSMap.delete k m) = JSMap.get k' m.
Proof.
  intros Hne. unfold JSMap.delete.
  induction m as [| [k0 v0] m IH]; [reflexivity |].
  simpl. destruct (String.eqb_spec k k0) as [-> | Hk]; simpl.
  - destruct (String.eqb_spec k' k0); [congruence | exact IH].
  - destruct (String.eqb_spec k' k0); [reflexivity | exact IH].
Qed.

Lemma In_delete_entry k k' v m :
  In (k', v) (JSMap.delete k m) <-> In (k', v) m /\ k' <> k.
Proof.
  unfold JSMap.delete. rewrite filter_In. simpl.
  destruct (String.eqb_spec k k') as [-> | Hne]; simpl; intuition congruence.
Qed.

(** What [set] leaves in the map: the new value under [k], or an entry
    that was there. *)
Lemma In_set_entry k v k' v' m :
  In (k', v') (JSMap.set k v m) -> (k' = k /\ v' = v) \/ In (k', v') m.
Proof.
  induction m as [| [k0 v0] m IH]; simpl.
  - intros [[= <- <-] | []]. now left.
  - destruct (String.eqb_spec k k0) as [-> | Hk]; simpl.
    + intros [[= <- <-] | H]; [now left | right; now right].
    + intros [H | H]; [right; now left |].
      destruct (IH H) as [E | Hin]; [now left | right; now right].
Qed.

Lemma delete_set k v m :
  JSMap.delete k (JSMap.set k v m) = JSMap.delete k m.
Proof.
  unfold JSMap.delete. induction m as [| [k0 v0] m IH]; simpl.
  - now rewrite String.eqb_refl.
  - destruct (String.eqb_spec k k0) as [-> | Hk]; simpl.
    + now rewrite String.eqb_refl.
    + destruct (String.eqb_spec k k0); [contradiction | now rewrite IH].
Qed.

End WithValues.

End JSMapFacts.

(** ** The room table's own operations *)

Lemma del_Some (s : SocketId) (R : RoomId) (m : JSMap.t JSSet.t) users :
  JSMap.get R m = Some users ->
  Adapter.del s R m =
  if JSSet.size (JSSet.delete s users) =? 0 then JSMap.delete R m
  else JSMap.set R (JSSet.delete s users) m.
Proof. intros H. unfold Adapter.del. now rewrite H. Qed.

Lemma del_None (s : SocketId) (R : RoomId) (m : JSMap.t JSSet.t) :
  JSMap.get R m = None -> Adapter.del s R m = m.
Proof. intros H. unfold Adapter.del. now rewrite H. Qed.

(** ** Running the handlers *)


Ltac unfold_M :=
  unfold handle, after, effects, outcome;
  unfold on_connect_error, on_connection, on_user_join, on_chat_join_room,
    on_chat_send_message, on_chat_leave_room, on_video_join_room,
    on_video_send_offer, on_video_send_answer, on_video_ice_candidate,
    on_video_leave_room, on_disconnect, on_error, get_root, get_health;
  unfold remove_from_all, set_add, set_delete, set_size, when,
    socket_to_emit, io_to_emit, activeUsers_get, console_log, console_error;
  unfold socket_join, socket_leave, socket_leaveAll, map_has, map_set,
    map_delete, map_get, modify, read, tell, ret, throw;
  unfold bind, JSMap.has.

Ltac use_lookups :=
  repeat match goal with
         | H : JSMap.get ?k ?m = _ |- context [JSMap.get ?k ?m] => rewrite H
         end.

Ltac run_M :=
  repeat progress
    (cbn;
     rewrite ?JSMapFacts.get_set_same, ?JSMapFacts.set_set,
       ?JSMapFacts.get_delete_same;
     use_lookups).

Section Runs.
Variables (s : SocketId) (st : Server).

Lemma connection_run transport origin userAgent :
  handle (Connection s transport origin userAgent) st =
  (Done tt, with_rooms (Adapter.addAll s s (rooms st)) st,
   [Console Info [JStr "✅ Client connected:"; JStr s;
                  JStr "(transport: "; JStr transport; JStr ")"];
    Console Info [JStr "Connection origin:"; origin];
    Console Info [JStr "User agent:"; userAgent]]).
Proof. reflexivity. Qed.

Lemma user_join_run userData :
  handle (UserJoin s userData) st =
  (Done tt,
   with_activeUsers
     (JSMap.set s
        {| User.id := s;
           User.userId := UserData.userId userData;
           User.username := UserData.username userData;
           User.email := UserData.email userData |}
        (activeUsers st)) st,
   [Console Info [JStr "👤 User joined: "; UserData.username userData]]).
Proof. reflexivity. Qed.

Lemma chat_join_room_run R now :
  let user := JSMap.get s (activeUsers st) in
  let users := JSSet.add s (members R (chatRooms st)) in
  let rs := Adapter.addAll s R (rooms st) in
  handle (ChatJoinRoom s R now) st =
  (Done tt,
   {| activeUsers := activeUsers st;
      chatRooms := JSMap.set R users (chatRooms st);
      videoRooms := videoRooms st;
      rooms := rs |},
   [Console Info [JStr "💬 "; js_or (opt User.username user) (JStr s);
                  JStr " joined chat room: "; JStr R];
    Emit "chat:user-joined"
      (JObj [("userId", opt User.userId user);
             ("username", opt User.username user);
             ("timestamp", JStr (iso now))])
      (Adapter.targets R [s] rs);
    Emit "chat:room-joined"
      (JObj [("roomId", JStr R); ("userCount", JNum (JSSet.size users))])
      (Adapter.targets s [] rs)]).
Proof.
  unfold_M. destruct st as [au cr vr rs0]. unfold members. cbn.
  destruct (JSMap.get R cr) as [users |] eqn:Hget; run_M; reflexivity.
Qed.

Lemma video_join_room_run R :
  let user := JSMap.get s (activeUsers st) in
  let users := JSSet.add s (members R (videoRooms st)) in
  let rs := Adapter.addAll s R (rooms st) in
  handle (VideoJoinRoom s R) st =
  (Done tt,
   {| activeUsers := activeUsers st;
      chatRooms := chatRooms st;
      videoRooms := JSMap.set R users (videoRooms st);
      rooms := rs |},
   [Console Info [JStr "📹 "; js_or (opt User.username user) (JStr s);
                  JStr " joined video room: "; JStr R];
    Emit "video:all-users" (JArr (otherUsers s users (activeUsers st)))
      (Adapter.targets s [] rs);
    Emit "video:user-joined"
      (JObj [("socketId", JStr s);
             ("userId", opt User.userId user);
             ("username", opt User.username user)])
      (Adapter.targets R [s] rs)]).
Proof.
  unfold_M. destruct st as [au cr vr rs0]. unfold members. cbn.
  destruct (JSMap.get R vr) as [users |] eqn:Hget; run_M; reflexivity.
Qed.

(** What the leave handlers do to their room map is what the adapter's
    [del] does to the room table: the socket goes, and so does a room
    left without members. *)
Lemma chat_leave_room_run R now :
  let user := JSMap.get s (activeUsers st) in
  let rs := Adapter.del s R (rooms st) in
  handle (ChatLeaveRoom s R now) st =
  (Done tt,
   {| activeUsers := activeUsers st;
      chatRooms := Adapter.del s R (chatRooms st);
      videoRooms := videoRooms st;
      rooms := rs |},
   [Console Info [JStr "💬 "; js_or (opt User.username user) (JStr s);
                  JStr " left chat room: "; JStr R];
    Emit "chat:user-left"
      (JObj [("userId", opt User.userId user);
             ("username", opt User.username user);
             ("timestamp", JStr (iso now))])
      (Adapter.targets R [s] rs)]).
Proof.
  unfold_M. destruct st as [au cr vr rs0]. cbn.
  destruct (JSMap.get R cr) as [users |] eqn:Hget.
  - rewrite (del_Some s R cr users Hget). run_M.
    destruct (JSSet.size (JSSet.delete s users) =? 0); run_M;
      [fold (JSMap.delete R (JSMap.set R (JSSet.delete s users) cr));
       rewrite JSMapFacts.delete_set |]; reflexivity.
  - rewrite (del_None s R cr Hget). run_M. reflexivity.
Qed.

Lemma video_leave_room_run R :
  let user := JSMap.get s (activeUsers st) in
  let rs := Adapter.del s R (rooms st) in
  handle (VideoLeaveRoom s R) st =
  (Done tt,
   {| activeUsers := activeUsers st;
      chatRooms := chatRooms st;
      videoRooms := Adapter.del s R (videoRooms st);
      rooms := rs |},
   [Console Info [JStr "📹 "; js_or (opt User.username user) (JStr s);
                  JStr " left video room: "; JStr R];
    Emit "video:user-left"
      (JObj [("socketId", JStr s);
             ("userId", opt User.userId user);
             ("username", opt User.username user)])
      (Adapter.targets R [s] rs)]).
Proof.
  unfold_M. destruct st as [au cr vr rs0]. cbn.
  destruct (JSMap.get R vr) as [users |] eqn:Hget.
  - rewrite (del_Some s R vr users Hget). run_M.
    destruct (JSSet.size (JSSet.delete s users) =? 0); run_M;
      [fold (JSMap.delete R (JSMap.set R (JSSet.delete s users) vr));
       rewrite JSMapFacts.delete_set |]; reflexivity.
  - rewrite (del_None s R vr Hget). run_M. reflexivity.
Qed.

End Runs.

(** The message object [chat:send-message] builds. *)
Lemma chat_send_message_run (s : SocketId) (st : Server) data now :
  let user := JSMap.get s (activeUsers st) in
  let sender := js_or (MessageData.username data) (opt User.username user) in
  handle (ChatSendMessage s data now) st =
  (Done tt, st,
   [Console Info [JStr "📨 Message in "; JStr (MessageData.roomId data);
                  JStr " from "; sender; JStr ": "; MessageData.message data];
    Emit "chat:receive-message"
      (JObj [("id", JStr ("msg-" ++ dec (ms now) ++ "-" ++ s));
             ("roomId", JStr (MessageData.roomId data));
             ("message", MessageData.message data);
             ("userId",
              js_or (MessageData.userId data) (opt User.userId user));
             ("username", sender);
             ("timestamp", JStr (iso now))])
      (Adapter.targets (MessageData.roomId data) [] (rooms st))]).
Proof. reflexivity. Qed.

(** With nothing excepted, a broadcast goes to the whole room. *)
Lemma targets_all (room : RoomId) (rs : JSMap.t JSSet.t) :
  Adapter.targets room [] rs = members room rs.
Proof.
  unfold Adapter.targets. cbn.
  induction (members room rs) as [| x l IH]; [reflexivity |].
  cbn. now rewrite IH.
Qed.

(** A socket's broadcast goes to the members of the room that are not
    in the room named by the socket's id. *)
Lemma In_targets_except (t s : SocketId) (room : RoomId)
    (rs : JSMap.t JSSet.t) :
  In t (Adapter.targets room [s] rs) <->
  In t (members room rs) /\ ~ In t (members s rs).
Proof.
  unfold Adapter.targets, Adapter.computeExceptSids. cbn [flat_map].
  rewrite app_nil_r, filter_In, negb_true_iff, JSSetFacts.has_false.
  tauto.
Qed.

Lemma signal_run (k : Signal) (s : SocketId) (body : json) (to : SocketId)
    (st : Server) :
  exists logs payload,
    handle (signal_event k s body to) st =
    (Done tt, st,
     (logs ++ [Emit (signal_receive k) payload (members to (rooms st))])%list)
    /\ (forall e, In e logs -> exists parts, e = Console Info parts)
    /\ field (signal_key k) payload = body
    /\ field "from" payload = JStr s.
Proof.
  destruct k; cbn -[Adapter.targets]; unfold_M; cbn -[Adapter.targets];
    rewrite targets_all.
  - eexists [_], _. split; [reflexivity |].
    split; [| split; reflexivity].
    intros e [<- | []]. eauto.
  - eexists [_], _. split; [reflexivity |].
    split; [| split; reflexivity].
    intros e [<- | []]. eauto.
  - exists [], (JObj [("candidate", body); ("from", JStr s)]).
    split; [reflexivity |]. split; [| split; reflexivity].
    intros e [].
Qed.

(** The loop of the disconnect handler over one room map. *)
Lemma forEach_remove_run (s : SocketId) (event : string) (payload : json)
    (entries : JSMap.t JSSet.t) (st : Server) :
  forEach_remove s event payload entries st =
  (Done (without s entries), st,
   departures s event payload entries (rooms st)).
Proof.
  unfold without, departures.
  induction entries as [| [R users] rest IH]; [reflexivity |].
  cbn [forEach_remove filter map fst snd].
  destruct (JSSet.has s users) eqn:Hhas.
  - unfold bind at 1. unfold socket_to_emit, bind, read, tell. cbn.
    rewrite IH. cbn. now rewrite app_nil_r.
  - unfold bind at 1. rewrite IH. cbn.
    now rewrite app_nil_r, (JSSetFacts.delete_absent s users Hhas).
Qed.

Lemma disconnect_run (s : SocketId) (st : Server) now :
  let user := JSMap.get s (activeUsers st) in
  let rs := Adapter.delAll s (rooms st) in
  handle (Disconnect s now) st =
  (Done tt,
   {| activeUsers := JSMap.delete s (activeUsers st);
      chatRooms := without s (chatRooms st);
      videoRooms := without s (videoRooms st);
      rooms := rs |},
   (Console Info [JStr "❌ Client disconnected:"; JStr s]
    :: departures s "chat:user-left"
         (JObj [("userId", opt User.userId user);
                ("username", opt User.username user);
                ("timestamp", JStr (iso now))])
         (chatRooms st) rs
    ++ departures s "video:user-left"
         (JObj [("socketId", JStr s);
                ("userId", opt User.userId user);
                ("username", opt User.username user)])
         (videoRooms st) rs)%list).
Proof.
  destruct st as [au cr vr rs0]. cbn zeta.
  unfold handle, on_disconnect, remove_from_all, activeUsers_get,
    console_log, socket_leaveAll.
  unfold bind, modify, read, tell.
  cbn -[forEach_remove without departures Adapter.delAll].
  rewrite forEach_remove_run.
  cbn -[forEach_remove without departures Adapter.delAll].
  rewrite forEach_remove_run. cbn -[without departures Adapter.delAll].
  now rewrite !app_nil_r.
Qed.

(** ** Room membership in the room table *)

Lemma members_set_same (k : RoomId) (v : JSSet.t) (rs : JSMap.t JSSet.t) :
  members k (JSMap.set k v rs) = v.
Proof. unfold members. now rewrite JSMapFacts.get_set_same. Qed.

Lemma members_set_other (k k' : RoomId) (v : JSSet.t) (rs : JSMap.t JSSet.t) :
  k <> k' -> members k' (JSMap.set k v rs) = members k' rs.
Proof. intros H. unfold members. now rewrite JSMapFacts.get_set_other. Qed.

Lemma In_members_addAll (t s : SocketId) (R k : RoomId)
    (rs : JSMap.t JSSet.t) :
  In t (members k (Adapter.addAll s R rs)) <->
  (k = R /\ t = s) \/ In t (members k rs).
Proof.
  unfold Adapter.addAll. destruct (String.eqb_spec R k) as [-> | Hne].
  - rewrite members_set_same, JSSetFacts.In_add. tauto.
  - rewrite members_set_other by assumption. intuition congruence.
Qed.


(** A socket alone in its own room stays so when it joins a room. *)
Lemma own_room_addAll (s : SocketId) (R : RoomId) (st : Server) :
  own_room s st ->
  forall t, In t (members s (Adapter.addAll s R (rooms st))) <-> t = s.
Proof.
  intros Hown t. rewrite In_members_addAll. unfold own_room, joined in Hown.
  rewrite Hown. tauto.
Qed.

(** ** Rooms named by socket ids *)

Lemma rooms_join (w : RoomMap) (st : Server) (t : SocketId) (R : RoomId)
    (now : Clock) :
  rooms (after (join_event w t R now) st) = Adapter.addAll t R (rooms st).
Proof.
  unfold after. destruct w; cbn [join_event].
  - now rewrite chat_join_room_run.
  - now rewrite video_join_room_run.
Qed.

Lemma rooms_leave (w : RoomMap) (st : Server) (t : SocketId) (R : RoomId)
    (now : Clock) :
  rooms (after (leave_event w t R now) st) = Adapter.del t R (rooms st).
Proof.
  unfold after. destruct w; cbn [leave_event].
  - now rewrite chat_leave_room_run.
  - now rewrite video_leave_room_run.
Qed.

Lemma members_del_other (t : SocketId) (R k : RoomId) (rs : JSMap.t JSSet.t) :
  R <> k -> members k (Adapter.del t R rs) = members k rs.
Proof.
  intros Hne. unfold Adapter.del, members.
  destruct (JSMap.get R rs) as [v |]; [| reflexivity].
  destruct (JSSet.size (JSSet.delete t v) =? 0).
  - now rewrite JSMapFacts.get_delete_other.
  - now rewrite JSMapFacts.get_set_other.
Qed.

(** A socket whose id names no room yet is alone in its room once
    connected. *)
Lemma connection_own_room (st : Server) (s : SocketId) transport origin
    userAgent :
  members s (rooms st) = [] ->
  own_room s (after (Connection s transport origin userAgent) st).
Proof.
  intros Hfresh t. unfold joined, after. rewrite connection_run.
  cbn [fst snd with_rooms rooms]. rewrite In_members_addAll, Hfresh.
  cbn. intuition congruence.
Qed.

(** It stays alone as long as the rooms joined and left are named
    otherwise. *)
Lemma own_room_join_other (w : RoomMap) (st : Server) (s t : SocketId)
    (R : RoomId) (now : Clock) :
  R <> s -> own_room s st -> own_room s (after (join_event w t R now) st).
Proof.
  intros Hne Hown x. unfold joined. rewrite rooms_join, In_members_addAll.
  rewrite <- (Hown x). unfold joined. intuition congruence.
Qed.

Lemma own_room_leave_other (w : RoomMap) (st : Server) (s t : SocketId)
    (R : RoomId) (now : Clock) :
  R <> s -> own_room s st -> own_room s (after (leave_event w t R now) st).
Proof.
  intros Hne Hown x. unfold joined.
  rewrite rooms_leave, members_del_other by assumption. apply Hown.
Qed.

(** ** The room maps under join, leave and disconnect *)

Lemma without_in_no_room (s : SocketId) (m : JSMap.t JSSet.t) :
  in_no_room s (without s m).
Proof.
  intros room users Hin. unfold without in Hin. apply in_map_iff in Hin.
  destruct Hin as [[k v] [[= <- <-] _]]. apply JSSetFacts.has_delete_same.
Qed.

Lemma keys_without (s : SocketId) (m : JSMap.t JSSet.t) :
  JSMap.keys (without s m) = JSMap.keys m.
Proof.
  unfold JSMap.keys, without. rewrite map_map. apply map_ext. reflexivity.
Qed.

Lemma get_without (s : SocketId) (R : RoomId) (m : JSMap.t JSSet.t) :
  JSMap.get R (without s m) = option_map (JSSet.delete s) (JSMap.get R m).
Proof.
  induction m as [| [k v] m IH]; [reflexivity |]. cbn.
  destruct (R =? k)%string; [reflexivity | exact IH].
Qed.

Section RoomMaps.
Variables (w : RoomMap) (st : Server) (s : SocketId) (R : RoomId) (now : Clock).

Lemma room_map_join :
  room_map w (after (join_event w s R now) st) =
  JSMap.set R (JSSet.add s (members R (room_map w st))) (room_map w st).
Proof.
  unfold after. destruct w; cbn [join_event].
  - now rewrite chat_join_room_run.
  - now rewrite video_join_room_run.
Qed.

Lemma room_map_leave :
  room_map w (after (leave_event w s R now) st) =
  Adapter.del s R (room_map w st).
Proof.
  unfold after. destruct w; cbn [leave_event].
  - now rewrite chat_leave_room_run.
  - now rewrite video_leave_room_run.
Qed.

Lemma room_map_disconnect :
  room_map w (after (Disconnect s now) st) = without s (room_map w st).
Proof. unfold after. rewrite disconnect_run. now destruct w. Qed.

End RoomMaps.

(** The [userCount] a join reports. *)
Lemma userCount_reported (st : Server) (s : SocketId) (R : RoomId)
    (now : Clock) :
  reported "chat:room-joined" "userCount" (effects (ChatJoinRoom s R now) st) =
  JNum (JSSet.size (JSSet.add s (members R (chatRooms st)))).
Proof. unfold effects. rewrite chat_join_room_run. reflexivity. Qed.

Lemma del_nonempty (s : SocketId) (R : RoomId) (m : JSMap.t JSSet.t) :
  rooms_nonempty m -> rooms_nonempty (Adapter.del s R m).
Proof.
  intros Hne. destruct (JSMap.get R m) as [users |] eqn:Hget.
  - rewrite (del_Some s R m users Hget).
    destruct (JSSet.size (JSSet.delete s users) =? 0) eqn:Hsize.
    + intros room us Hin. apply JSMapFacts.In_delete_entry in Hin.
      now apply (Hne room us).
    + intros room us Hin. apply JSMapFacts.In_set_entry in Hin.
      destruct Hin as [[_ ->] | Hin]; [| now apply (Hne room us)].
      intros Hnil. apply JSSetFacts.size_zero in Hnil. congruence.
  - now rewrite del_None.
Qed.

(** ** The lists stay maps and sets *)

Module Tidy.

Lemma add_NoDup (x : string) (s : JSSet.t) : NoDup s -> NoDup (JSSet.add x s).
Proof.
  intros H. unfold JSSet.add. destruct (JSSet.has x s) eqn:Hx; [exact H |].
  apply JSSetFacts.has_false in Hx. apply NoDup_app; [exact H | | ].
  - constructor; [cbn; tauto | constructor].
  - intros y Hy [<- | []]. contradiction.
Qed.

Lemma delete_NoDup (x : string) (s : JSSet.t) :
  NoDup s -> NoDup (JSSet.delete x s).
Proof. apply NoDup_filter. Qed.

Section Keys.
Context {V : Type}.
Implicit Types (m : JSMap.t V) (k : string) (v : V).

Lemma has_keys k m : JSMap.has k m = true <-> In k (JSMap.keys m).
Proof.
  unfold JSMap.has, JSMap.keys. induction m as [| [k0 v0] m IH]; cbn.
  - split; [discriminate | intros []].
  - destruct (String.eqb_spec k k0) as [-> | Hne].
    + split; [now left | reflexivity].
    + rewrite IH. split; [now right | intros [E | H]; congruence].
Qed.

Lemma keys_set k v m :
  JSMap.keys (JSMap.set k v m) =
  if JSMap.has k m then JSMap.keys m else (JSMap.keys m ++ [k])%list.
Proof.
  unfold JSMap.has, JSMap.keys. induction m as [| [k0 v0] m IH]; cbn.
  - reflexivity.
  - destruct (String.eqb_spec k k0) as [-> | Hne]; cbn; [reflexivity |].
    rewrite IH. now destruct (JSMap.get k m).
Qed.

Lemma set_keys_NoDup k v m :
  NoDup (JSMap.keys m) -> NoDup (JSMap.keys (JSMap.set k v m)).
Proof.
  intros H. rewrite keys_set. destruct (JSMap.has k m) eqn:Hk; [exact H |].
  apply NoDup_app; [exact H | constructor; [cbn; tauto | constructor] |].
  intros y Hy [<- | []]. apply has_keys in Hy. congruence.
Qed.

Lemma keys_delete k m :
  JSMap.keys (JSMap.delete k m) =
  filter (fun k' => negb (k =? k')%string) (JSMap.keys m).
Proof.
  unfold JSMap.keys, JSMap.delete. induction m as [| [k0 v0] m IH]; cbn.
  - reflexivity.
  - destruct (k =? k0)%string; cbn; now rewrite IH.
Qed.

Lemma delete_keys_NoDup k m :
  NoDup (JSMap.keys m) -> NoDup (JSMap.keys (JSMap.delete k m)).
Proof. intros H. rewrite keys_delete. now apply NoDup_filter. Qed.

End Keys.

Lemma set_tidy (k : RoomId) (v : JSSet.t) (m : JSMap.t JSSet.t) :
  NoDup v -> tidy m -> tidy (JSMap.set k v m).
Proof.
  intros Hv [Hk Hs]. split; [now apply set_keys_NoDup |].
  intros k' v' Hin. apply JSMapFacts.In_set_entry in Hin.
  destruct Hin as [[_ ->] | Hin]; [exact Hv | now apply (Hs k')].
Qed.

Lemma delete_tidy (k : RoomId) (m : JSMap.t JSSet.t) :
  tidy m -> tidy (JSMap.delete k m).
Proof.
  intros [Hk Hs]. split; [now apply delete_keys_NoDup |].
  intros k' v' Hin. apply JSMapFacts.In_delete_entry in Hin.
  now apply (Hs k').
Qed.

Lemma members_NoDup (k : RoomId) (m : JSMap.t JSSet.t) :
  tidy m -> NoDup (members k m).
Proof.
  intros [_ Hs]. unfold members.
  destruct (JSMap.get k m) as [v |] eqn:Hget; [| constructor].
  apply (Hs k). now apply JSMapFacts.get_In.
Qed.

Lemma addAll_tidy (s : SocketId) (R : RoomId) (m : JSMap.t JSSet.t) :
  tidy m -> tidy (Adapter.addAll s R m).
Proof.
  intros H. unfold Adapter.addAll.
  apply set_tidy; [apply add_NoDup, members_NoDup |]; exact H.
Qed.

Lemma del_tidy (s : SocketId) (R : RoomId) (m : JSMap.t JSSet.t) :
  tidy m -> tidy (Adapter.del s R m).
Proof.
  intros H. unfold Adapter.del.
  destruct (JSMap.get R m) as [v |] eqn:Hget; [| exact H].
  destruct (JSSet.size (JSSet.delete s v) =? 0); [now apply delete_tidy |].
  apply set_tidy; [| exact H]. apply delete_NoDup.
  apply (proj2 H R). now apply JSMapFacts.get_In.
Qed.

Lemma without_tidy (s : SocketId) (m : JSMap.t JSSet.t) :
  tidy m -> tidy (without s m).
Proof.
  intros [Hk Hs]. split; [now rewrite keys_without |].
  intros k v Hin. unfold without in Hin. apply in_map_iff in Hin.
  destruct Hin as [[k0 v0] [[= <- <-] Hin]]. cbn.
  apply delete_NoDup. now apply (Hs k0).
Qed.

Lemma In_delAll (s : SocketId) (k : RoomId) (v : JSSet.t)
    (m : JSMap.t JSSet.t) :
  In (k, v) (Adapter.delAll s m) ->
  exists v0, In (k, v0) m /\ (v = v0 \/ v = JSSet.delete s v0).
Proof.
  unfold Adapter.delAll. rewrite in_flat_map.
  intros [[k0 v0] [Hin Hv]]. cbn [fst snd] in Hv.
  destruct (JSSet.has s v0).
  - destruct (JSSet.size (JSSet.delete s v0) =? 0); [destruct Hv |].
    destruct Hv as [[= <- <-] | []]. exists v0. auto.
  - destruct Hv as [[= <- <-] | []]. exists v0. auto.
Qed.

Lemma delAll_tidy (s : SocketId) (m : JSMap.t JSSet.t) :
  tidy m -> tidy (Adapter.delAll s m).
Proof.
  intros [Hk Hs]. split.
  - clear Hs. unfold JSMap.keys in *.
    induction m as [| [k0 v0] m IH]; [constructor |].
    inversion Hk as [| ? ? Hnotin Hrest]; subst.
    assert (Hsub : forall k, In k (map fst (Adapter.delAll s m)) ->
                             In k (map fst m)).
    { intros k Hin. apply in_map_iff in Hin.
      destruct Hin as [[k1 v1] [<- Hin]]. apply In_delAll in Hin.
      destruct Hin as [v [Hin _]]. apply in_map_iff. now exists (k1, v). }
    unfold Adapter.delAll. cbn [flat_map fst snd].
    fold (Adapter.delAll s m).
    destruct (JSSet.has s v0);
      [destruct (JSSet.size (JSSet.delete s v0) =? 0) |]; cbn;
      try (constructor; [intros Hin; apply Hnotin, Hsub, Hin |]);
      now apply IH.
  - intros k v Hin. apply In_delAll in Hin.
    destruct Hin as [v0 [Hin [-> | ->]]];
      [| apply delete_NoDup]; now apply (Hs k).
Qed.

End Tidy.

(** No handler throws: the Sets the handlers call methods on are
    there. *)
Theorem handlers_complete (ev : Event) (st : Server) :
  outcome ev st = Done tt.
Proof.
  unfold outcome.
  destruct ev;
    [ | | | rewrite chat_join_room_run | | rewrite chat_leave_room_run
      | rewrite video_join_room_run | | | | rewrite video_leave_room_run
      | rewrite disconnect_run | ];
    reflexivity.
Qed.

(** Every handler keeps the four lists maps of sets. *)
Theorem well_formed_after (ev : Event) (st : Server) :
  well_formed st -> well_formed (after ev st).
Proof.
  intros H. pose proof H as [Hu [Hc [Hv Hr]]]. unfold after.
  destruct ev; try exact H;
    [ rewrite connection_run | rewrite user_join_run
    | rewrite chat_join_room_run | rewrite chat_leave_room_run
    | rewrite video_join_room_run | rewrite video_leave_room_run
    | rewrite disconnect_run ];
    unfold well_formed;
    cbn [fst snd with_rooms with_activeUsers activeUsers chatRooms
         videoRooms rooms];
    (split; [| split; [| split]]); try assumption;
    auto using Tidy.addAll_tidy, Tidy.del_tidy, Tidy.delAll_tidy,
      Tidy.without_tidy, Tidy.set_keys_NoDup, Tidy.delete_keys_NoDup,
      Tidy.set_tidy, Tidy.add_NoDup, Tidy.members_NoDup.
Qed.

Theorem well_formed_run (evs : list Event) :
  well_formed (run evs boot).
Proof.
  assert (H : forall st, well_formed st -> well_formed (run evs st)).
  { induction evs as [| ev evs IH]; intros st Hst; [exact Hst |].
    cbn. apply IH. now apply well_formed_after. }
  apply H. repeat split; constructor || (intros ? ? []).
Qed.

(** ** The sample runs, evaluated *)

Example in_chat_state :
  in_chat =
  {| activeUsers := [];
     chatRooms := [("W", ["a1"; "b2"])];
     videoRooms := [];
     rooms := [("a1", ["a1"]); ("b2", ["b2"]); ("W", ["a1"; "b2"])] |}.
Proof. reflexivity. Qed.

(** Leaving the call took [a1] out of the Socket.io room [W]; the chat
    room's Set still holds it. *)
Example after_call_state :
  after_call =
  {| activeUsers := [];
     chatRooms := [("W", ["a1"; "b2"])];
     videoRooms := [];
     rooms := [("a1", ["a1"]); ("b2", ["b2"]); ("W", ["b2"])] |}.
Proof. reflexivity. Qed.

Example left_own_room_state :
  left_own_room =
  {| activeUsers := []; chatRooms := []; videoRooms := []; rooms := [] |}.
Proof. reflexivity. Qed.

Example eavesdropper_state :
  eavesdropper =
  {| activeUsers := [];
     chatRooms := [("a1", ["b2"])];
     videoRooms := [];
     rooms := [("a1", ["a1"; "b2"]); ("b2", ["b2"]); ("c3", ["c3"])] |}.
Proof. reflexivity. Qed.

(** ** Delivery of chat messages *)



(** C1, at the input where the code fails it.  [a1] and [b2] are in the
    chat of workspace [W]; [a1] has been in the video call of the
    workspace, which the client names [W] too, and has left it.  [a1]
    never left the chat and [chatRooms] lists it for [W], but a chat
    message for [W], from [b2] or from [a1] itself, goes to [b2] alone:
    [a1] does not receive it, not even its own. *)
Theorem chat_member_misses_messages :
  after_call =
    run [connect "a1"; connect "b2";
         ChatJoinRoom "a1" "W" noon; ChatJoinRoom "b2" "W" noon;
         VideoJoinRoom "a1" "W"; VideoLeaveRoom "a1" "W"] boot /\
  members "W" (chatRooms after_call) = ["a1"; "b2"] /\
  (forall s,
     exists payload,
       snd (handle (ChatSendMessage s hello noon) after_call) =
       [Console Info [JStr "📨 Message in "; JStr "W"; JStr " from ";
                      JStr "Ada"; JStr ": "; JStr "hello"];
        Emit "chat:receive-message" payload ["b2"]]) /\
  ~ message_reaches after_call "b2" hello noon "a1" /\
  ~ message_reaches after_call "a1" hello noon "a1" /\
  ~ broadcast_reaches_members after_call "a1" hello noon.
Proof.
  assert (Hmiss : forall s, ~ message_reaches after_call s hello noon "a1").
  { intros s [payload [[rcpts [Hin Ht]] _]].
    unfold effects in Hin. rewrite chat_send_message_run in Hin.
    cbn [snd] in Hin. destruct Hin as [Hin | [Hin | []]]; [discriminate |].
    injection Hin as _ <-. vm_compute in Ht.
    destruct Ht as [Ht | []]. discriminate. }
  split; [reflexivity |]. split; [reflexivity |].
  split; [intros s; eexists; reflexivity |].
  split; [apply Hmiss |]. split; [apply Hmiss |].
  intros H. apply (Hmiss "a1"), H. vm_compute. now left.
Qed.

(** ** Disconnect *)

(** Who a departure notice reaches. *)
Lemma departures_reach (s t : SocketId) (event : string) (payload : json)
    (m rs : JSMap.t JSSet.t) (room : RoomId) (users : JSSet.t) :
  In (room, users) m -> JSSet.has s users = true ->
  In t (members room rs) -> ~ In t (members s rs) ->
  receives t event payload (departures s event payload m rs).
Proof.
  intros Hin Hhas Ht Hns. exists (Adapter.targets room [s] rs). split.
  - unfold departures. apply in_map_iff. exists (room, users).
    split; [reflexivity |]. apply filter_In. now split.
  - apply In_targets_except. now split.
Qed.

Lemma receives_app (t : SocketId) (event : string) (payload : json)
    (out1 out2 : list Effect) :
  receives t event payload out1 \/ receives t event payload out2 ->
  receives t event payload (out1 ++ out2).
Proof.
  intros [[r [Hin Ht]] | [r [Hin Ht]]]; exists r;
    (split; [apply in_or_app; auto | exact Ht]).
Qed.

Lemma receives_cons (t : SocketId) (event : string) (payload : json)
    (e : Effect) (out : list Effect) :
  receives t event payload out -> receives t event payload (e :: out).
Proof. intros [r [Hin Ht]]. exists r. split; [now right | exact Ht]. Qed.

(** The ['disconnect'] handler in full.  Afterwards the socket is in no
    Set of [chatRooms], in no Set of [videoRooms] and not in
    [activeUsers]; and for each chat room (video room) whose Set held
    the socket, a ['chat:user-left'] (['video:user-left']) is emitted to
    the Socket.io room of that name: it reaches every socket joined to
    that room, but for those in the room named by the leaving socket's
    id. *)
Lemma disconnect_removes_membership (st : Server) (s : SocketId)
    (now : Clock) :
  let st' := after (Disconnect s now) st in
  let out := effects (Disconnect s now) st in
  outcome (Disconnect s now) st = Done tt /\
  in_no_room s (chatRooms st') /\
  in_no_room s (videoRooms st') /\
  JSMap.has s (activeUsers st') = false /\
  (forall room users t,
     In (room, users) (chatRooms st) -> JSSet.has s users = true ->
     joined t room st' -> ~ joined t s st' ->
     exists payload, receives t "chat:user-left" payload out) /\
  (forall room users t,
     In (room, users) (videoRooms st) -> JSSet.has s users = true ->
     joined t room st' -> ~ joined t s st' ->
     exists payload, receives t "video:user-left" payload out).
Proof.
  unfold outcome, after, effects, joined. rewrite disconnect_run.
  cbn [fst snd chatRooms videoRooms activeUsers rooms].
  split; [reflexivity |].
  split; [apply without_in_no_room |].
  split; [apply without_in_no_room |].
  split; [apply JSMapFacts.has_false_get, JSMapFacts.get_delete_same |].
  split; intros room users t Hin Hhas Ht Hns; eexists;
    apply receives_cons, receives_app; [left | right];
    eapply departures_reach; eassumption.
Qed.

(** With both clients still joined to what they are listed in, the one
    that stays is told. *)
Example disconnect_tells_joined_member :
  exists payload,
    receives "b2" "chat:user-left" payload
      (effects (Disconnect "a1" noon) two_in_rooms) /\
    field "username" payload = JStr "Ada".
Proof.
  eexists. split.
  - exists ["b2"]. split; [vm_compute; right; left; reflexivity | now left].
  - reflexivity.
Qed.

(** C2 fails on the code.  [after_call] is reached by the client's own
    calls: [a1] and [b2] open the chat of workspace [W], and [a1] joins
    and ends a video call there, for which the client uses the name [W]
    again, so that ['video:leave-room'] takes [a1] out of the Socket.io
    room the chat is broadcast in.  [chatRooms] still lists both.  When
    [b2] disconnects, the handler takes [b2] out of the Set and emits
    ['chat:user-left'] to a room nobody is joined to: [a1], the
    remaining member, is sent nothing. *)
Theorem disconnect_misses_chat_member :
  JSMap.get "W" (chatRooms after_call) = Some ["a1"; "b2"] /\
  JSMap.get "W" (chatRooms (after (Disconnect "b2" noon) after_call)) =
    Some ["a1"] /\
  effects (Disconnect "b2" noon) after_call =
    [Console Info [JStr "❌ Client disconnected:"; JStr "b2"];
     Emit "chat:user-left"
       (JObj [("userId", JUndefined); ("username", JUndefined);
              ("timestamp", JStr "2023-11-14T22:13:20.000Z")])
       []] /\
  ~ disconnect_removes_and_tells after_call "b2" noon.
Proof.
  split; [reflexivity |]. split; [reflexivity |]. split; [reflexivity |].
  intros [_ [_ [_ [H _]]]].
  destruct (H "W" ["a1"; "b2"] "a1") as [payload [rcpts [Hin Ht]]].
  - vm_compute. auto.
  - reflexivity.
  - now left.
  - discriminate.
  - vm_compute in Hin. destruct Hin as [Hin | [Hin | []]]; [discriminate |].
    injection Hin as _ <-. destruct Ht.
Qed.

(** ** Joining a chat room *)

(** C3, as the code has it.  A ['chat:join-room'] for [R] puts the
    socket in the Set [chatRooms] holds for [R], creating the entry when
    there is none.  When the joiner is alone in the room named by its
    own id, every other socket joined to [R] receives
    ['chat:user-joined'], and the joiner receives ['chat:room-joined']
    with [userCount] the size of that Set, joiner included. *)
Theorem chat_join_room_adds_and_announces (st : Server) (s : SocketId)
    (R : RoomId) (now : Clock) :
  outcome (ChatJoinRoom s R now) st = Done tt /\
  JSMap.get R (chatRooms (after (ChatJoinRoom s R now) st)) =
    Some (JSSet.add s (members R (chatRooms st))) /\
  reported "chat:room-joined" "userCount"
    (effects (ChatJoinRoom s R now) st) =
    JNum (JSSet.size (JSSet.add s (members R (chatRooms st)))) /\
  (own_room s st -> join_adds_and_announces st s R now).
Proof.
  split; [apply handlers_complete |].
  split; [| split; [apply userCount_reported |]].
  { pose proof (room_map_join ChatRooms st s R now) as H.
    cbn [room_map join_event] in H. rewrite H.
    apply JSMapFacts.get_set_same. }
  unfold join_adds_and_announces, after, effects, joined.
  rewrite chat_join_room_run. cbn [fst snd chatRooms rooms].
  rewrite JSMapFacts.get_set_same.
  intros Hown. pose proof (own_room_addAll s R st Hown) as Hown'.
  eexists. split; [reflexivity |].
  split; [apply JSSetFacts.In_add; now left |]. split.
  - intros t Hne Ht. eexists. eexists.
    split; [right; left; reflexivity |].
    apply In_targets_except. split; [exact Ht |].
    intros Hin. apply Hown' in Hin. contradiction.
  - eexists. split; [right; right; left; reflexivity |].
    rewrite targets_all. now apply Hown'.
Qed.

Lemma chat_join_room_adds_and_announces_witness :
  own_room "b2" one_in_chat /\
  join_adds_and_announces one_in_chat "b2" "W" noon.
Proof.
  assert (H : own_room "b2" one_in_chat).
  { intros t. vm_compute.
    split; [intros [H | []]; now symmetry | intros ->; auto]. }
  split; [exact H |].
  exact (proj2 (proj2 (proj2
           (chat_join_room_adds_and_announces one_in_chat "b2" "W" noon))) H).
Defined.

(** What a join emits once the joiner has left the room named by its
    own id: nobody is excepted from ['chat:user-joined'], and
    ['chat:room-joined'] has no recipient. *)
Example left_own_room_join :
  effects (ChatJoinRoom "a1" "W" noon) left_own_room =
  [Console Info
     [JStr "💬 "; JStr "a1"; JStr " joined chat room: "; JStr "W"];
   Emit "chat:user-joined"
     (JObj [("userId", JUndefined); ("username", JUndefined);
            ("timestamp", JStr "2023-11-14T22:13:20.000Z")])
     ["a1"];
   Emit "chat:room-joined"
     (JObj [("roomId", JStr "W"); ("userCount", JNum 1)]) []].
Proof. reflexivity. Qed.

(** As worded, the statement fails for a client that has left the
    room named by its own id: ['chat:room-joined'] is addressed to that
    room, and reaches nobody. *)
Lemma join_unannounced_to_joiner :
  ~ join_adds_and_announces left_own_room "a1" "W" noon.
Proof.
  intros [users [_ [_ [_ [rcpts [Hin Ht]]]]]].
  vm_compute in Hin.
  destruct Hin as [Hin | [Hin | [Hin | []]]]; try discriminate.
  injection Hin as _ <-. destruct Ht.
Qed.

(** The video room's join, likewise: the joiner is put in the Set of
    [videoRooms] and, when alone in its own room, receives
    ['video:all-users'] with the other members of that Set, while every
    other socket joined to [R] receives ['video:user-joined'] naming the
    joiner. *)
Lemma video_join_room_announces (st : Server) (s : SocketId) (R : RoomId) :
  let st' := after (VideoJoinRoom s R) st in
  let out := effects (VideoJoinRoom s R) st in
  let users := JSSet.add s (members R (videoRooms st)) in
  JSMap.get R (videoRooms st') = Some users /\
  (own_room s st ->
   receives s "video:all-users"
     (JArr (otherUsers s users (activeUsers st))) out /\
   forall t, t <> s -> joined t R st' ->
     exists payload,
       receives t "video:user-joined" payload out /\
       field "socketId" payload = JStr s).
Proof.
  unfold after, effects, joined. rewrite video_join_room_run.
  cbn [fst snd videoRooms rooms]. rewrite JSMapFacts.get_set_same.
  split; [reflexivity |].
  intros Hown. pose proof (own_room_addAll s R st Hown) as Hown'. split.
  - eexists. split; [right; left; reflexivity |].
    rewrite targets_all. now apply Hown'.
  - intros t Hne Ht. eexists. split.
    + eexists. split; [right; right; left; reflexivity |].
      apply In_targets_except. split; [exact Ht |].
      intros Hin. apply Hown' in Hin. contradiction.
    + reflexivity.
Qed.

(** ** Signalling *)

Lemma signal_effects_ignore_maps (k : Signal) (s : SocketId) (body : json)
    (to : SocketId) (st : Server) (cr vr : JSMap.t JSSet.t) :
  effects (signal_event k s body to)
    (with_room_map VideoRooms vr (with_room_map ChatRooms cr st)) =
  effects (signal_event k s body to) st.
Proof. destruct k; reflexivity. Qed.

(** C4, as the code has it.  A ['video:send-offer'], ['video:send-answer']
    or ['video:ice-candidate'] is delivered to the sockets joined to the
    room named by [to], and to them only, with the offer / answer /
    candidate untouched and [from] the sender's id.  So when the target
    is alone in the room of its own id, it receives the message and no
    other socket does.  Neither [videoRooms] nor [chatRooms] has a say,
    and the state is left as it was. *)
Theorem signalling_point_to_point (st : Server) (k : Signal)
    (s : SocketId) (body : json) (to : SocketId) :
  let out := effects (signal_event k s body to) st in
  after (signal_event k s body to) st = st /\
  (forall cr vr,
     effects (signal_event k s body to)
       (with_room_map VideoRooms vr (with_room_map ChatRooms cr st)) = out) /\
  (forall t,
     joined t to st ->
     exists payload,
       receives t (signal_receive k) payload out /\
       field (signal_key k) payload = body /\
       field "from" payload = JStr s) /\
  (forall t payload,
     receives t (signal_receive k) payload out -> joined t to st) /\
  (own_room to st -> signal_point_to_point st k s body to).
Proof.
  cbn zeta.
  assert (Hall :
    (forall t, joined t to st ->
       exists payload,
         receives t (signal_receive k) payload
           (effects (signal_event k s body to) st) /\
         field (signal_key k) payload = body /\
         field "from" payload = JStr s) /\
    (forall t payload,
       receives t (signal_receive k) payload
         (effects (signal_event k s body to) st) -> joined t to st)).
  { unfold effects, joined.
    destruct (signal_run k s body to st)
      as [logs [payload [Hrun [Hlogs [Hbody Hfrom]]]]].
    rewrite Hrun. cbn [snd]. split.
    - intros t Ht. exists payload. split; [| split; assumption].
      exists (members to (rooms st)). split; [| exact Ht].
      apply in_or_app. right. now left.
    - intros t p [rcpts [Hin Ht]]. apply in_app_or in Hin.
      destruct Hin as [Hin | [Hin | []]].
      + apply Hlogs in Hin. destruct Hin as [parts Hin]. discriminate.
      + injection Hin as _ <-. exact Ht. }
  destruct Hall as [Hto Honly].
  split; [| split; [| split; [| split]]].
  - destruct (signal_run k s body to st) as [logs [payload [Hrun _]]].
    unfold after. now rewrite Hrun.
  - intros cr vr. apply signal_effects_ignore_maps.
  - exact Hto.
  - exact Honly.
  - intros Hown. split.
    + apply Hto. now apply Hown.
    + intros t p Hr. apply Hown. now apply (Honly t p).
Qed.

Lemma signalling_point_to_point_witness :
  own_room "b2" two_in_rooms /\
  signal_point_to_point two_in_rooms Offer "a1" (JStr "v=0 o=- 46117") "b2".
Proof.
  assert (H : own_room "b2" two_in_rooms).
  { intros t. vm_compute.
    split; [intros [H | []]; now symmetry | intros ->; auto]. }
  split; [exact H |].
  exact (proj2 (proj2 (proj2 (proj2
           (signalling_point_to_point two_in_rooms Offer "a1"
              (JStr "v=0 o=- 46117") "b2")))) H).
Defined.

(** An offer for [a1] once [b2] has joined the room named [a1]. *)
Example eavesdropper_offer :
  effects (VideoSendOffer "c3" (JStr "v=0 o=- 46117") "a1") eavesdropper =
  [Console Info
     [JStr "📡 Sending offer from "; JStr "c3"; JStr " to "; JStr "a1"];
   Emit "video:receive-offer"
     (JObj [("offer", JStr "v=0 o=- 46117"); ("from", JStr "c3");
            ("username", JUndefined)])
     ["a1"; "b2"]].
Proof. reflexivity. Qed.

(** As worded, the statement fails once another client has joined
    the room named by the target's id: the offer reaches both. *)
Lemma signal_overheard :
  ~ signal_point_to_point eavesdropper Offer "c3" (JStr "v=0 o=- 46117") "a1".
Proof.
  intros [_ Honly].
  assert (H : "b2" = "a1"); [| discriminate H].
  apply (Honly "b2"
           (JObj [("offer", JStr "v=0 o=- 46117"); ("from", JStr "c3");
                  ("username", JUndefined)])).
  exists ["a1"; "b2"]. split; [vm_compute; auto | right; now left].
Qed.

(** ** What the handlers write *)


(** What every emit goes by is that room table, not the maps: before
    and after the call the three maps are the same, and a chat message
    is delivered differently. *)
Example delivery_reads_room_table :
  activeUsers after_call = activeUsers in_chat /\
  chatRooms after_call = chatRooms in_chat /\
  videoRooms after_call = videoRooms in_chat /\
  effects (ChatSendMessage "b2" hello noon) after_call <>
  effects (ChatSendMessage "b2" hello noon) in_chat.
Proof. repeat split. vm_compute. discriminate. Qed.

(** ** Connection-state recovery *)

(** As worded, the statement fails: the option is given, the
    library's default is to leave it out. *)
Lemma recovery_configured : ~ recovery_left_at_default.
Proof. intros H. specialize (H None). discriminate H. Qed.

(** C6, as the code has it.  The server is built with
    [connectionStateRecovery] given, which switches the feature on; its
    two fields repeat the values the library would fill in: two minutes
    and [true]. *)
Theorem recovery_switched_on (CLIENT_URL : option string) :
  Options.connectionStateRecovery (io_options CLIENT_URL) =
    Some library_recovery_fields /\
  Options.connectionStateRecovery (io_options CLIENT_URL) <>
    library_connectionStateRecovery /\
  Options.maxDisconnectionDuration library_recovery_fields = 120000 /\
  Options.skipMiddlewares library_recovery_fields = true.
Proof. repeat split. discriminate. Qed.

(** ** HTTP *)

(** C7. Two routes are registered, [GET /] and [GET /api/health]: the
    first answers with the sizes of the three maps under [activeUsers],
    [chatRooms] and [videoRooms], the second with
    [{ status: 'healthy' }] whatever the state; neither changes it. *)
Theorem http_status_endpoints (st : Server) :
  map (fun r => (method r, path r)) routes =
    [("GET", "/"); ("GET", "/api/health")] /\
  registered "GET" "/" = Some get_root /\
  registered "GET" "/api/health" = Some get_health /\
  (exists body,
     get_root st = (Done body, st, []) /\
     field "activeUsers" body = JNum (JSMap.size (activeUsers st)) /\
     field "chatRooms" body = JNum (JSMap.size (chatRooms st)) /\
     field "videoRooms" body = JNum (JSMap.size (videoRooms st))) /\
  get_health st = (Done (JObj [("status", JStr "healthy")]), st, []).
Proof.
  repeat split. eexists. split; [reflexivity |]. repeat split.
Qed.

(** ** Errors *)

(** C8. The ['error'] handler of a socket and the ['connect_error']
    handler of the server write one line to the console, emit nothing
    and leave the state as it was. *)
Theorem error_handlers_only_log (st : Server) (s : SocketId) (error : json) :
  handle (SocketError s error) st =
    (Done tt, st, [Console Error [JStr "❌ Socket error:"; error]]) /\
  handle (ConnectError error) st =
    (Done tt, st,
     [Console Error [JStr "❌ Socket.io connection error:"; error]]) /\
  (forall ev event payload rcpts,
     ev = SocketError s error \/ ev = ConnectError error ->
     ~ In (Emit event payload rcpts) (effects ev st)).
Proof.
  split; [reflexivity |]. split; [reflexivity |].
  intros ev event payload rcpts [-> | ->] [H | []]; discriminate H.
Qed.

Lemma error_handlers_only_log_witness :
  ~ In (Emit "chat:user-left" JNull ["a1"])
       (effects (SocketError "a1" (JStr "transport error")) two_in_rooms).
Proof.
  apply (proj2 (proj2
           (error_handlers_only_log two_in_rooms "a1"
              (JStr "transport error")))).
  now left.
Defined.

(** ** Emptied rooms *)

(** C9. When the socket that leaves by ['chat:leave-room'] or
    ['video:leave-room'] is the last member, the room's entry goes from
    the map, so an explicit leave keeps every mapped room non-empty.
    The ['disconnect'] handler deletes no entry: the map keeps the keys
    it had, and a room whose only member disconnects stays, with an
    empty Set. *)
Theorem empty_room_cleanup_asymmetric (w : RoomMap) (st : Server)
    (s : SocketId) (R : RoomId) (now : Clock) :
  (forall users,
     JSMap.get R (room_map w st) = Some users ->
     (forall t, In t users -> t = s) ->
     JSMap.has R (room_map w (after (leave_event w s R now) st)) = false) /\
  (rooms_nonempty (room_map w st) ->
   rooms_nonempty (room_map w (after (leave_event w s R now) st))) /\
  JSMap.keys (room_map w (after (Disconnect s now) st)) =
    JSMap.keys (room_map w st) /\
  (JSMap.get R (room_map w st) = Some [s] ->
   JSMap.get R (room_map w (after (Disconnect s now) st)) = Some []).
Proof.
  rewrite room_map_leave, room_map_disconnect. repeat split.
  - intros users Hget Hlast. rewrite (del_Some s R _ users Hget).
    rewrite (JSSetFacts.delete_last s users Hlast). cbn.
    apply JSMapFacts.has_false_get, JSMapFacts.get_delete_same.
  - apply del_nonempty.
  - apply keys_without.
  - intros Hget. rewrite get_without, Hget. cbn.
    now rewrite String.eqb_refl.
Qed.

Lemma empty_room_cleanup_asymmetric_witness :
  (JSMap.get "W" (chatRooms one_in_chat) = Some ["a1"] /\
   JSMap.has "W" (chatRooms (after (ChatLeaveRoom "a1" "W" noon) one_in_chat))
     = false) /\
  (rooms_nonempty (chatRooms one_in_chat) /\
   rooms_nonempty (chatRooms (after (ChatLeaveRoom "a1" "W" noon) one_in_chat)))
  /\
  JSMap.get "W" (chatRooms (after (Disconnect "a1" noon) one_in_chat)) =
    Some [].
Proof.
  pose proof (empty_room_cleanup_asymmetric ChatRooms one_in_chat "a1" "W" noon)
    as [Hlast [Hkeep [_ Hstay]]].
  assert (Hget : JSMap.get "W" (chatRooms one_in_chat) = Some ["a1"])
    by reflexivity.
  assert (Hne : rooms_nonempty (chatRooms one_in_chat)).
  { intros room users. vm_compute. intros [[= _ <-] | []]. discriminate. }
  split; [split; [exact Hget |] | split; [split; [exact Hne |] |]].
  - apply (Hlast ["a1"] Hget). intros t [<- | []]. reflexivity.
  - exact (Hkeep Hne).
  - exact (Hstay Hget).
Defined.

(** ** Joining again *)

Lemma join_present (w : RoomMap) (st : Server) (s : SocketId) (R : RoomId)
    (now : Clock) (users : JSSet.t) :
  JSMap.get R (room_map w st) = Some users ->
  JSSet.has s users = true ->
  room_map w (after (join_event w s R now) st) = room_map w st.
Proof.
  intros Hget Hhas. rewrite room_map_join. unfold members. rewrite Hget.
  rewrite (JSSetFacts.add_has s users Hhas). now apply JSMapFacts.set_get.
Qed.

(** C10. A socket that joins a chat room (a video room) whose Set
    already holds it leaves the map as it was, and the [userCount] of
    ['chat:room-joined'] is the size the Set had.  So, from any state, a
    second join by the same socket changes neither the map the first
    join left nor the [userCount] it reported. *)
Theorem rejoin_is_idempotent (w : RoomMap) (st : Server) (s : SocketId)
    (R : RoomId) (now now' : Clock) :
  (forall users,
     JSMap.get R (room_map w st) = Some users ->
     JSSet.has s users = true ->
     room_map w (after (join_event w s R now) st) = room_map w st /\
     (w = ChatRooms ->
      reported "chat:room-joined" "userCount"
        (effects (ChatJoinRoom s R now) st) = JNum (JSSet.size users))) /\
  (let st1 := after (join_event w s R now) st in
   room_map w (after (join_event w s R now') st1) = room_map w st1) /\
  (let st1 := after (ChatJoinRoom s R now) st in
   reported "chat:room-joined" "userCount"
     (effects (ChatJoinRoom s R now') st1) =
   reported "chat:room-joined" "userCount"
     (effects (ChatJoinRoom s R now) st)).
Proof.
  split; [| split].
  - intros users Hget Hhas.
    split; [now apply (join_present w st s R now users) |].
    intros ->. rewrite userCount_reported. unfold members.
    cbn [room_map] in Hget. rewrite Hget.
    now rewrite (JSSetFacts.add_has s users Hhas).
  - cbn zeta.
    apply (join_present w _ s R now'
             (JSSet.add s (members R (room_map w st)))).
    + rewrite room_map_join. apply JSMapFacts.get_set_same.
    + apply JSSetFacts.has_add_same.
  - cbn zeta. rewrite !userCount_reported.
    pose proof (room_map_join ChatRooms st s R now) as Hmap.
    cbn [room_map join_event] in Hmap. rewrite Hmap, members_set_same.
    now rewrite (JSSetFacts.add_has s _ (JSSetFacts.has_add_same s _)).
Qed.

Lemma rejoin_is_idempotent_witness :
  JSMap.get "W" (chatRooms two_in_rooms) = Some ["a1"; "b2"] /\
  JSSet.has "b2" ["a1"; "b2"] = true /\
  chatRooms (after (ChatJoinRoom "b2" "W" noon) two_in_rooms) =
    chatRooms two_in_rooms /\
  reported "chat:room-joined" "userCount"
    (effects (ChatJoinRoom "b2" "W" noon) two_in_rooms) = JNum 2.
Proof.
  pose proof (proj1 (rejoin_is_idempotent ChatRooms two_in_rooms "b2" "W"
                       noon noon) ["a1"; "b2"] eq_refl eq_refl)
    as [Hmap Hcount].
  split; [reflexivity |]. split; [reflexivity |].
  split; [exact Hmap | exact (Hcount eq_refl)].
Defined.

(** * Further properties of the relay *)

(** ** More on maps, sets and the room table *)

Lemma length_set {V : Type} (k : string) (v : V) (m : JSMap.t V) :
  JSMap.size (JSMap.set k v m) =
  if JSMap.has k m then JSMap.size m else JSMap.size m + 1.
Proof.
  unfold JSMap.size, JSMap.has. induction m as [| [k0 v0] m IH].
  - reflexivity.
  - cbn [JSMap.set JSMap.get]. destruct (k =? k0)%string; [reflexivity |].
    cbn [List.length]. destruct (JSMap.get k m); lia.
Qed.

Lemma delete_none {V : Type} (k : string) (m : JSMap.t V) :
  JSMap.get k m = None -> JSMap.delete k m = m.
Proof.
  unfold JSMap.delete. induction m as [| [k0 v0] m IH]; [reflexivity |].
  cbn. destruct (k =? k0)%string; [discriminate |].
  intros H. cbn. now rewrite IH.
Qed.

Lemma delete_add_fresh (s : SocketId) (users : JSSet.t) :
  ~ In s users -> JSSet.delete s (JSSet.add s users) = users.
Proof.
  intros Hs. apply JSSetFacts.has_false in Hs. unfold JSSet.add.
  rewrite Hs. unfold JSSet.delete. rewrite filter_app. cbn.
  rewrite String.eqb_refl. cbn. rewrite app_nil_r.
  now apply JSSetFacts.delete_absent.
Qed.

(** The joiner filtered out of the Set it was just added to. *)
Lemma others_after_add (s : SocketId) (users : JSSet.t) :
  filter (fun id => negb (id =? s)%string) (JSSet.add s users) =
  JSSet.delete s users.
Proof.
  assert (E : forall l,
             filter (fun id => negb (id =? s)%string) l = JSSet.delete s l).
  { intros l. unfold JSSet.delete. apply filter_ext. intros a.
    now rewrite String.eqb_sym. }
  rewrite E. unfold JSSet.add. destruct (JSSet.has s users); [reflexivity |].
  unfold JSSet.delete. rewrite filter_app. cbn. rewrite String.eqb_refl.
  cbn. now rewrite app_nil_r.
Qed.

Lemma get_del_other (t : SocketId) (R k : RoomId) (rs : JSMap.t JSSet.t) :
  R <> k -> JSMap.get k (Adapter.del t R rs) = JSMap.get k rs.
Proof.
  intros Hne. unfold Adapter.del.
  destruct (JSMap.get R rs) as [v |]; [| reflexivity].
  destruct (JSSet.size (JSSet.delete t v) =? 0).
  - now rewrite JSMapFacts.get_delete_other.
  - now rewrite JSMapFacts.get_set_other.
Qed.

Lemma members_del_same (t : SocketId) (R : RoomId) (rs : JSMap.t JSSet.t) :
  members R (Adapter.del t R rs) = JSSet.delete t (members R rs).
Proof.
  unfold Adapter.del, members.
  destruct (JSMap.get R rs) as [v |] eqn:Hget.
  - destruct (JSSet.size (JSSet.delete t v) =? 0) eqn:Hsize.
    + rewrite JSMapFacts.get_delete_same.
      apply JSSetFacts.size_zero in Hsize. now rewrite Hsize.
    + now rewrite JSMapFacts.get_set_same.
  - now rewrite Hget.
Qed.

(** Joining and then leaving gives the room table back. *)
Lemma del_addAll (s : SocketId) (R : RoomId) (m : JSMap.t JSSet.t) :
  ~ In s (members R m) -> JSMap.get R m <> Some [] ->
  Adapter.del s R (Adapter.addAll s R m) = m.
Proof.
  intros Hs Hne. unfold Adapter.addAll.
  rewrite (del_Some s R _ _ (JSMapFacts.get_set_same R _ m)).
  rewrite (delete_add_fresh s _ Hs). unfold members in *.
  destruct (JSMap.get R m) as [users |] eqn:Hget.
  - destruct (JSSet.size users =? 0) eqn:Hsize.
    + apply JSSetFacts.size_zero in Hsize. subst users. now destruct Hne.
    + rewrite JSMapFacts.set_set. now apply JSMapFacts.set_get.
  - cbn. rewrite JSMapFacts.delete_set. now apply delete_none.
Qed.

(** A room left empty by a disconnect goes with the next leave. *)
Lemma del_addAll_leftover (s : SocketId) (R : RoomId) (m : JSMap.t JSSet.t) :
  JSMap.get R m = Some [] ->
  Adapter.del s R (Adapter.addAll s R m) = JSMap.delete R m.
Proof.
  intros Hget. unfold Adapter.addAll.
  rewrite (del_Some s R _ _ (JSMapFacts.get_set_same R _ m)).
  unfold members. rewrite Hget. cbn. rewrite String.eqb_refl. cbn.
  apply JSMapFacts.delete_set.
Qed.

Lemma addAll_join (w : RoomMap) (st : Server) (s : SocketId) (R : RoomId)
    (now : Clock) :
  room_map w (after (join_event w s R now) st) =
  Adapter.addAll s R (room_map w st).
Proof. apply room_map_join. Qed.

Lemma other_map_join (w : RoomMap) (st : Server) (s : SocketId) (R : RoomId)
    (now : Clock) :
  room_map (other_map w) (after (join_event w s R now) st) =
  room_map (other_map w) st.
Proof.
  unfold after. destruct w; cbn [join_event other_map].
  - now rewrite chat_join_room_run.
  - now rewrite video_join_room_run.
Qed.

Lemma other_map_leave (w : RoomMap) (st : Server) (s : SocketId) (R : RoomId)
    (now : Clock) :
  room_map (other_map w) (after (leave_event w s R now) st) =
  room_map (other_map w) st.
Proof.
  unfold after. destruct w; cbn [leave_event other_map].
  - now rewrite chat_leave_room_run.
  - now rewrite video_leave_room_run.
Qed.

Lemma activeUsers_join_leave (w : RoomMap) (st : Server) (s : SocketId)
    (R : RoomId) (now : Clock) :
  activeUsers (after (join_event w s R now) st) = activeUsers st /\
  activeUsers (after (leave_event w s R now) st) = activeUsers st.
Proof.
  unfold after. destruct w; cbn [join_event leave_event];
    rewrite ?chat_join_room_run, ?video_join_room_run,
      ?chat_leave_room_run, ?video_leave_room_run; split; reflexivity.
Qed.

(** A state is its four tables. *)
Lemma server_ext (w : RoomMap) (a b : Server) :
  activeUsers a = activeUsers b ->
  room_map w a = room_map w b ->
  room_map (other_map w) a = room_map (other_map w) b ->
  rooms a = rooms b ->
  a = b.
Proof.
  destruct a, b, w; cbn; intros; subst; reflexivity.
Qed.

(** What a leave emits. *)
Lemma leave_effects (w : RoomMap) (st : Server) (s : SocketId) (R : RoomId)
    (now : Clock) :
  exists log payload,
    effects (leave_event w s R now) st =
    [Console Info log;
     Emit (user_left w) payload
       (Adapter.targets R [s] (Adapter.del s R (rooms st)))].
Proof.
  unfold effects. destruct w; cbn [leave_event user_left].
  - rewrite chat_leave_room_run. cbn [snd]. eauto.
  - rewrite video_leave_room_run. cbn [snd]. eauto.
Qed.

(** ** Registration *)

(** X1. ['user:join'] stores the record [{ id, userId, username, email }]
    under the socket's id: the record is what a lookup then finds, every
    other socket's record is as before, a socket that registers again
    replaces its record without adding an entry, and no room is
    touched. *)
Theorem user_join_registers (st : Server) (s : SocketId)
    (userData : UserData.t) :
  let st' := after (UserJoin s userData) st in
  JSMap.get s (activeUsers st') =
    Some {| User.id := s;
            User.userId := UserData.userId userData;
            User.username := UserData.username userData;
            User.email := UserData.email userData |} /\
  (forall t, t <> s ->
     JSMap.get t (activeUsers st') = JSMap.get t (activeUsers st)) /\
  JSMap.size (activeUsers st') =
    (if JSMap.has s (activeUsers st) then JSMap.size (activeUsers st)
     else JSMap.size (activeUsers st) + 1) /\
  chatRooms st' = chatRooms st /\
  videoRooms st' = videoRooms st /\
  rooms st' = rooms st.
Proof.
  cbn zeta. unfold after. rewrite user_join_run.
  cbn [fst snd with_activeUsers activeUsers chatRooms videoRooms rooms].
  split; [apply JSMapFacts.get_set_same |].
  split; [intros t Hne; apply JSMapFacts.get_set_other; congruence |].
  split; [apply length_set |]. auto.
Qed.

(** ** No handler throws *)



(** ** Joining and leaving *)

(** X3. Leaving a room right after joining it gives back the state
    there was, when the socket was not in the room and the room was not
    an empty leftover. *)
Theorem join_then_leave_restores (w : RoomMap) (st : Server) (s : SocketId)
    (R : RoomId) (now now' : Clock) :
  ~ In s (members R (room_map w st)) ->
  ~ joined s R st ->
  JSMap.get R (room_map w st) <> Some [] ->
  JSMap.get R (rooms st) <> Some [] ->
  after (leave_event w s R now') (after (join_event w s R now) st) = st.
Proof.
  intros Hmap Hroom Hne Hne'. apply (server_ext w).
  - rewrite (proj2 (activeUsers_join_leave w _ s R now')).
    apply (proj1 (activeUsers_join_leave w st s R now)).
  - rewrite room_map_leave, addAll_join. now apply del_addAll.
  - now rewrite other_map_leave, other_map_join.
  - rewrite rooms_leave, rooms_join. now apply del_addAll.
Qed.

Lemma join_then_leave_restores_witness :
  after (ChatLeaveRoom "b2" "W" noon)
    (after (ChatJoinRoom "b2" "W" noon) one_in_chat) = one_in_chat.
Proof.
  apply (join_then_leave_restores ChatRooms one_in_chat "b2" "W" noon noon);
    vm_compute; intuition discriminate.
Defined.

(** X4. An empty Set left under a room's key (what a disconnect leaves
    behind) is not restored by a join followed by a leave: the leave
    removes the key. *)
Theorem join_then_leave_clears_leftover (w : RoomMap) (st : Server)
    (s : SocketId) (R : RoomId) (now now' : Clock) :
  JSMap.get R (room_map w st) = Some [] ->
  let st' := after (leave_event w s R now') (after (join_event w s R now) st) in
  room_map w st' = JSMap.delete R (room_map w st) /\
  JSMap.has R (room_map w st') = false.
Proof.
  intros Hget. cbn zeta. rewrite room_map_leave, addAll_join.
  rewrite (del_addAll_leftover s R _ Hget).
  split; [reflexivity |].
  apply JSMapFacts.has_false_get, JSMapFacts.get_delete_same.
Qed.

Lemma join_then_leave_clears_leftover_witness :
  let st := after (Disconnect "a1" noon) one_in_chat in
  let st' := after (ChatLeaveRoom "b2" "W" noon)
               (after (ChatJoinRoom "b2" "W" noon) st) in
  chatRooms st = [("W", [])] /\ chatRooms st' = [].
Proof.
  cbn zeta. split; [reflexivity |].
  apply (join_then_leave_clears_leftover ChatRooms
           (after (Disconnect "a1" noon) one_in_chat) "b2" "W" noon noon).
  reflexivity.
Defined.

(** X5. Who is told of a leave.  For a room not named by the leaver's
    own id, ['chat:user-left'] (['video:user-left']) goes to exactly the
    sockets joined to the Socket.io room, the leaver apart and whoever
    is in the room named by the leaver's id apart; whether the leaver
    was ever in the room plays no part. *)
Theorem leave_notice_recipients (w : RoomMap) (st : Server) (s t : SocketId)
    (R : RoomId) (now : Clock) :
  R <> s ->
  ((exists payload,
      receives t (user_left w) payload (effects (leave_event w s R now) st))
   <-> joined t R st /\ t <> s /\ ~ joined t s st).
Proof.
  intros Hne. destruct (leave_effects w st s R now) as [log [payload E]].
  rewrite E. unfold receives, joined.
  assert (Hin : In t (Adapter.targets R [s] (Adapter.del s R (rooms st))) <->
                In t (members R (rooms st)) /\ t <> s /\
                ~ In t (members s (rooms st))).
  { rewrite In_targets_except, members_del_same, JSSetFacts.In_delete.
    rewrite (members_del_other s R s (rooms st) Hne). tauto. }
  split.
  - intros [p [recipients [[Hc | [He | []]] Ht]]]; [discriminate |].
    injection He as _ <-. now apply Hin.
  - intros H. exists payload. eexists. split; [right; left; reflexivity |].
    now apply Hin.
Qed.

Lemma leave_notice_recipients_witness :
  (exists payload,
     receives "b2" "chat:user-left" payload
       (effects (ChatLeaveRoom "c3" "W" noon) in_chat)) /\
  ~ (exists payload,
       receives "c3" "chat:user-left" payload
         (effects (ChatLeaveRoom "c3" "W" noon) in_chat)).
Proof.
  split.
  - apply (leave_notice_recipients ChatRooms in_chat "c3" "b2" "W" noon);
      [discriminate |].
    vm_compute. intuition discriminate.
  - intros H.
    apply (leave_notice_recipients ChatRooms in_chat "c3" "c3" "W" noon) in H;
      [| discriminate].
    now destruct H as [_ [Hne _]].
Defined.

(** X6. Joining or leaving a room changes that room alone: under any
    other name the room maps and the Socket.io room table hold what they
    held, and the map of the other kind is untouched under every
    name. *)
Theorem join_leave_touch_one_room (w w' : RoomMap) (st : Server)
    (s : SocketId) (R R' : RoomId) (now : Clock) :
  R' <> R ->
  let joins := after (join_event w s R now) st in
  let leaves := after (leave_event w s R now) st in
  JSMap.get R' (room_map w' joins) = JSMap.get R' (room_map w' st) /\
  JSMap.get R' (rooms joins) = JSMap.get R' (rooms st) /\
  JSMap.get R' (room_map w' leaves) = JSMap.get R' (room_map w' st) /\
  JSMap.get R' (rooms leaves) = JSMap.get R' (rooms st) /\
  room_map (other_map w) joins = room_map (other_map w) st /\
  room_map (other_map w) leaves = room_map (other_map w) st.
Proof.
  intros Hne. cbn zeta.
  assert (Hne' : R <> R') by congruence.
  assert (Hadd : forall m,
            JSMap.get R' (Adapter.addAll s R m) = JSMap.get R' m).
  { intros m. unfold Adapter.addAll. now apply JSMapFacts.get_set_other. }
  rewrite rooms_join, rooms_leave, Hadd, (get_del_other s R R' _ Hne').
  rewrite other_map_join, other_map_leave.
  assert (Hj : JSMap.get R' (room_map w' (after (join_event w s R now) st)) =
               JSMap.get R' (room_map w' st)).
  { unfold after.
    destruct w, w'; cbn [join_event];
      rewrite ?chat_join_room_run, ?video_join_room_run;
      cbn [fst snd room_map chatRooms videoRooms];
      try reflexivity; now apply JSMapFacts.get_set_other. }
  assert (Hl : JSMap.get R' (room_map w' (after (leave_event w s R now) st)) =
               JSMap.get R' (room_map w' st)).
  { unfold after.
    destruct w, w'; cbn [leave_event];
      rewrite ?chat_leave_room_run, ?video_leave_room_run;
      cbn [fst snd room_map chatRooms videoRooms];
      try reflexivity; now apply get_del_other. }
  auto 10.
Qed.

Lemma join_leave_touch_one_room_witness :
  JSMap.get "V" (videoRooms (after (VideoLeaveRoom "a1" "W") two_in_rooms)) =
  Some ["a1"; "b2"].
Proof.
  pose proof (join_leave_touch_one_room VideoRooms VideoRooms two_in_rooms
                "a1" "W" "V" noon) as H.
  cbn zeta in H. destruct H as [_ [_ [H _]]]; [discriminate |].
  exact H.
Defined.

(** ** The list a video joiner is sent *)

(** X7. ['video:all-users'] lists the sockets [videoRooms] held for the
    room before the join, the joiner apart, in the order they joined,
    each with the identity it registered; the joiner's own id is never
    in the list, also when it joins a second time. *)
Theorem video_join_lists_the_others (st : Server) (s : SocketId)
    (R : RoomId) :
  let before := members R (videoRooms st) in
  exists payload,
    emitted "video:all-users" (effects (VideoJoinRoom s R) st) =
      Some payload /\
    payload =
      JArr (map (fun id =>
                   let u := JSMap.get id (activeUsers st) in
                   JObj [("socketId", JStr id);
                         ("userId", opt User.userId u);
                         ("username", opt User.username u)])
                (JSSet.delete s before)) /\
    socket_ids payload = map JStr (JSSet.delete s before) /\
    ~ In (JStr s) (socket_ids payload) /\
    (forall t, t <> s ->
       (In (JStr t) (socket_ids payload) <-> In t before)).
Proof.
  cbn zeta. unfold effects. rewrite video_join_room_run. cbn [snd emitted].
  cbn [String.eqb Ascii.eqb Bool.eqb]. cbn match.
  eexists. split; [reflexivity |]. unfold otherUsers.
  rewrite others_after_add.
  assert (Hids : socket_ids
            (JArr (map (fun id =>
                     JObj [("socketId", JStr id);
                           ("userId",
                            opt User.userId (JSMap.get id (activeUsers st)));
                           ("username",
                            opt User.username
                              (JSMap.get id (activeUsers st)))])
                   (JSSet.delete s (members R (videoRooms st))))) =
          map JStr (JSSet.delete s (members R (videoRooms st)))).
  { cbn [socket_ids]. rewrite map_map. apply map_ext. reflexivity. }
  split; [reflexivity |]. split; [exact Hids |]. rewrite Hids.
  split.
  - rewrite in_map_iff. intros [x [[= ->] Hx]].
    apply JSSetFacts.In_delete in Hx. tauto.
  - intros t Hne. rewrite in_map_iff. split.
    + intros [x [[= ->] Hx]]. now apply JSSetFacts.In_delete in Hx.
    + intros Hin. exists t. split; [reflexivity |].
      now apply JSSetFacts.In_delete.
Qed.

(** ** Who a chat message says it is from *)


(** ** Rooms of one name *)

(** X9. A chat room and a video room of one name are one Socket.io
    room.  Leaving the room of one kind leaves the map of the other
    kind as it was, so a socket it listed is still listed; but the
    socket is out of the Socket.io room, and a chat message sent to
    that room by anybody does not reach it. *)
Theorem leave_silences_same_name (w : RoomMap) (st : Server)
    (s : SocketId) (R : RoomId) (now : Clock) :
  let st' := after (leave_event w s R now) st in
  room_map (other_map w) st' = room_map (other_map w) st /\
  ~ joined s R st' /\
  (forall sender message userId username now',
     ~ message_reaches st' sender
         {| MessageData.roomId := R; MessageData.message := message;
            MessageData.userId := userId; MessageData.username := username |}
         now' s).
Proof.
  cbn zeta.
  assert (Hout : ~ joined s R (after (leave_event w s R now) st)).
  { unfold joined. rewrite rooms_leave, members_del_same.
    rewrite JSSetFacts.In_delete. tauto. }
  split; [apply other_map_leave |]. split; [exact Hout |].
  intros sender message userId username now'
    [payload [[recipients [Hin Hs]] _]].
  unfold effects in Hin. rewrite chat_send_message_run in Hin.
  cbn [snd MessageData.roomId] in Hin.
  destruct Hin as [Hc | [He | []]]; [discriminate |].
  injection He as _ <-. rewrite targets_all in Hs.
  now apply Hout.
Qed.

(** ** A socket in no room goes quietly *)

(** X10. When the socket that disconnects is in no chat room and in no
    video room, nothing is emitted and the two room maps are as they
    were; its registration is gone all the same. *)
Theorem disconnect_outside_rooms (st : Server) (s : SocketId) (now : Clock) :
  in_no_room s (chatRooms st) ->
  in_no_room s (videoRooms st) ->
  let st' := after (Disconnect s now) st in
  effects (Disconnect s now) st =
    [Console Info [JStr "❌ Client disconnected:"; JStr s]] /\
  chatRooms st' = chatRooms st /\
  videoRooms st' = videoRooms st /\
  JSMap.get s (activeUsers st') = None.
Proof.
  intros Hc Hv. cbn zeta. unfold effects, after. rewrite disconnect_run.
  cbn [fst snd chatRooms videoRooms activeUsers].
  assert (Hdep : forall event payload m rs,
            in_no_room s m -> departures s event payload m rs = []).
  { intros event payload m rs Hm. unfold departures.
    induction m as [| [k v] m IH]; [reflexivity |]. cbn [filter snd].
    rewrite (Hm k v (or_introl eq_refl)). apply IH.
    intros room users Hin. apply (Hm room users). now right. }
  assert (Hwo : forall m, in_no_room s m -> without s m = m).
  { intros m Hm. unfold without.
    induction m as [| [k v] m IH]; [reflexivity |]. cbn [map fst snd].
    rewrite (JSSetFacts.delete_absent s v (Hm k v (or_introl eq_refl))).
    f_equal. apply IH. intros room users Hin. apply (Hm room users).
    now right. }
  rewrite !Hdep, !Hwo by assumption.
  repeat split. apply JSMapFacts.get_delete_same.
Qed.

Lemma disconnect_outside_rooms_witness :
  effects (Disconnect "b2" noon) one_in_chat =
    [Console Info [JStr "❌ Client disconnected:"; JStr "b2"]] /\
  chatRooms (after (Disconnect "b2" noon) one_in_chat) =
    chatRooms one_in_chat.
Proof.
  assert (Hc : in_no_room "b2" (chatRooms one_in_chat)).
  { intros room users [[= <- <-] | []]. reflexivity. }
  assert (Hv : in_no_room "b2" (videoRooms one_in_chat)).
  { intros room users []. }
  destruct (disconnect_outside_rooms one_in_chat "b2" noon Hc Hv)
    as [He [Hm _]].
  split; [exact He | exact Hm].
Defined.

(** ** Members of the room table under the adapter's operations *)

Lemma get_absent {V : Type} (k : string) (m : JSMap.t V) :
  ~ In k (JSMap.keys m) -> JSMap.get k m = None.
Proof.
  intros H. apply JSMapFacts.has_false_get.
  destruct (JSMap.has k m) eqn:E; [| reflexivity].
  apply Tidy.has_keys in E. contradiction.
Qed.

Lemma keys_delAll (s : SocketId) (k : RoomId) (m : JSMap.t JSSet.t) :
  In k (JSMap.keys (Adapter.delAll s m)) -> In k (JSMap.keys m).
Proof.
  unfold JSMap.keys. intros Hin. apply in_map_iff in Hin.
  destruct Hin as [[k1 v1] [<- Hin]]. apply Tidy.In_delAll in Hin.
  destruct Hin as [v [Hin _]]. apply in_map_iff. now exists (k1, v).
Qed.

Lemma members_cons (k k0 : RoomId) (v0 : JSSet.t) (m : JSMap.t JSSet.t) :
  members k ((k0, v0) :: m) = if (k =? k0)%string then v0 else members k m.
Proof. unfold members. cbn. now destruct (k =? k0)%string. Qed.

Lemma delAll_cons (s : SocketId) (k0 : RoomId) (v0 : JSSet.t)
    (m : JSMap.t JSSet.t) :
  Adapter.delAll s ((k0, v0) :: m) =
  ((if JSSet.has s v0 then
      if JSSet.size (JSSet.delete s v0) =? 0 then []
      else [(k0, JSSet.delete s v0)]
    else [(k0, v0)]) ++ Adapter.delAll s m)%list.
Proof. reflexivity. Qed.

(** Leaving every room takes the socket out of each. *)
Lemma members_delAll (s : SocketId) (k : RoomId) (m : JSMap.t JSSet.t) :
  NoDup (JSMap.keys m) ->
  members k (Adapter.delAll s m) = JSSet.delete s (members k m).
Proof.
  induction m as [| [k0 v0] m IH]; intros Hnd; [reflexivity |].
  cbn [JSMap.keys map fst] in Hnd.
  inversion Hnd as [| ? ? Hnotin Hrest]; subst.
  rewrite delAll_cons, members_cons.
  destruct (JSSet.has s v0) eqn:Hhas;
    [destruct (JSSet.size (JSSet.delete s v0) =? 0) eqn:Hsize |];
    cbn [app]; rewrite ?members_cons;
    destruct (String.eqb_spec k k0) as [-> | Hne];
    try (now apply IH); try reflexivity.
  - apply JSSetFacts.size_zero in Hsize. rewrite Hsize. unfold members.
    rewrite get_absent; [reflexivity |].
    intros Hin. apply Hnotin. now apply keys_delAll in Hin.
  - symmetry. now apply JSSetFacts.delete_absent.
Qed.

Lemma members_without (s : SocketId) (k : RoomId) (m : JSMap.t JSSet.t) :
  members k (without s m) = JSSet.delete s (members k m).
Proof.
  unfold members. rewrite get_without. now destruct (JSMap.get k m).
Qed.

Lemma In_members_del (t s : SocketId) (R k : RoomId) (m : JSMap.t JSSet.t) :
  In t (members k (Adapter.del s R m)) <->
  In t (members k m) /\ (k = R -> t <> s).
Proof.
  destruct (String.eqb_spec R k) as [-> | Hne].
  - rewrite members_del_same, JSSetFacts.In_delete. tauto.
  - rewrite members_del_other by assumption. intuition congruence.
Qed.

(** What no handler but the six that join and leave writes. *)
Lemma rooms_kept (ev : Event) (st : Server) :
  writes_rooms ev = false -> rooms (after ev st) = rooms st.
Proof. destruct ev; try discriminate; reflexivity. Qed.

Lemma room_map_kept (w : RoomMap) (ev : Event) (st : Server) :
  writes_chatRooms ev = false -> writes_videoRooms ev = false ->
  room_map w (after ev st) = room_map w st.
Proof. destruct ev, w; try discriminate; reflexivity. Qed.

(** ** The room maps list whoever is joined *)

Lemma mirrored_intro (w : RoomMap) (st : Server) :
  (forall R t,
     joined t R st ->
     t = R \/ In t (members R (room_map w st)) \/
     In t (members R (room_map (other_map w) st))) ->
  mirrored st.
Proof.
  intros H R t Hj. destruct (H R t Hj) as [E | [E | E]];
    destruct w; cbn [room_map other_map] in E; auto.
Qed.

Lemma mirrored_elim (w : RoomMap) (st : Server) :
  mirrored st ->
  forall R t,
    joined t R st ->
    t = R \/ In t (members R (room_map w st)) \/
    In t (members R (room_map (other_map w) st)).
Proof.
  intros H R t Hj. destruct (H R t Hj) as [E | [E | E]];
    destruct w; cbn [room_map other_map]; auto.
Qed.

Lemma mirrored_join (w : RoomMap) (st : Server) (s : SocketId) (R0 : RoomId)
    (now : Clock) :
  mirrored st -> mirrored (after (join_event w s R0 now) st).
Proof.
  intros H. apply (mirrored_intro w). intros R t Hj. unfold joined in Hj.
  rewrite rooms_join, In_members_addAll in Hj.
  rewrite addAll_join, other_map_join, In_members_addAll.
  destruct Hj as [[-> ->] | Hj]; [auto |].
  apply (mirrored_elim w st H) in Hj. tauto.
Qed.

Lemma mirrored_leave (w : RoomMap) (st : Server) (s : SocketId) (R0 : RoomId)
    (now : Clock) :
  mirrored st -> mirrored (after (leave_event w s R0 now) st).
Proof.
  intros H. apply (mirrored_intro w). intros R t Hj. unfold joined in Hj.
  rewrite rooms_leave, In_members_del in Hj.
  rewrite room_map_leave, other_map_leave, In_members_del.
  destruct Hj as [Hj Hne]. apply (mirrored_elim w st H) in Hj. tauto.
Qed.

Lemma mirrored_disconnect (st : Server) (s : SocketId) (now : Clock) :
  NoDup (JSMap.keys (rooms st)) ->
  mirrored st -> mirrored (after (Disconnect s now) st).
Proof.
  intros Hnd H R t Hj. unfold joined, after in *.
  rewrite disconnect_run in *. cbn [fst snd rooms chatRooms videoRooms] in *.
  rewrite members_delAll in Hj by assumption.
  rewrite !members_without, !JSSetFacts.In_delete.
  apply JSSetFacts.In_delete in Hj. destruct Hj as [Hj Hne].
  apply H in Hj. tauto.
Qed.

Lemma mirrored_after (ev : Event) (st : Server) :
  NoDup (JSMap.keys (rooms st)) -> mirrored st -> mirrored (after ev st).
Proof.
  intros Hnd H.
  destruct ev as [m | s tr o u | s d | s R now | s d now | s R now | s R
                 | s b to | s b to | s b to | s R | s now | s e];
    try exact H.
  - intros R t Hj. unfold joined, after in Hj. rewrite connection_run in Hj.
    cbn [fst snd with_rooms rooms] in Hj. apply In_members_addAll in Hj.
    destruct Hj as [[-> ->] | Hj]; [now left |]. exact (H R t Hj).
  - exact (mirrored_join ChatRooms st s R now H).
  - exact (mirrored_leave ChatRooms st s R now H).
  - exact (mirrored_join VideoRooms st s R noon H).
  - exact (mirrored_leave VideoRooms st s R noon H).
  - now apply mirrored_disconnect.
Qed.

(** ** Only connected sockets are remembered *)

Lemma all_live_mono (live live' : JSSet.t) (m : JSMap.t JSSet.t) :
  (forall t, In t live -> In t live') -> all_live live m -> all_live live' m.
Proof.
  intros Hsub H R users t Hin Ht. apply Hsub. exact (H R users t Hin Ht).
Qed.

Lemma all_live_addAll (live : JSSet.t) (s : SocketId) (R : RoomId)
    (m : JSMap.t JSSet.t) :
  In s live -> all_live live m -> all_live live (Adapter.addAll s R m).
Proof.
  intros Hs H R' users t Hin Ht. unfold Adapter.addAll in Hin.
  apply JSMapFacts.In_set_entry in Hin.
  destruct Hin as [[-> ->] | Hin]; [| exact (H R' users t Hin Ht)].
  apply JSSetFacts.In_add in Ht. destruct Ht as [-> | Ht]; [exact Hs |].
  unfold members in Ht. destruct (JSMap.get R m) as [v |] eqn:Hget;
    [| destruct Ht].
  exact (H R v t (JSMapFacts.get_In R v m Hget) Ht).
Qed.

Lemma all_live_del (live : JSSet.t) (s : SocketId) (R : RoomId)
    (m : JSMap.t JSSet.t) :
  all_live live m -> all_live live (Adapter.del s R m).
Proof.
  intros H R' users t Hin Ht. unfold Adapter.del in Hin.
  destruct (JSMap.get R m) as [v |] eqn:Hget;
    [| exact (H R' users t Hin Ht)].
  destruct (JSSet.size (JSSet.delete s v) =? 0).
  - apply JSMapFacts.In_delete_entry in Hin.
    exact (H R' users t (proj1 Hin) Ht).
  - apply JSMapFacts.In_set_entry in Hin.
    destruct Hin as [[-> ->] | Hin]; [| exact (H R' users t Hin Ht)].
    apply JSSetFacts.In_delete in Ht.
    exact (H R v t (JSMapFacts.get_In R v m Hget) (proj1 Ht)).
Qed.

Lemma all_live_delAll (live : JSSet.t) (s : SocketId) (m : JSMap.t JSSet.t) :
  all_live live m -> all_live (JSSet.delete s live) (Adapter.delAll s m).
Proof.
  intros H R users t Hin Ht. apply JSSetFacts.In_delete.
  unfold Adapter.delAll in Hin. apply in_flat_map in Hin.
  destruct Hin as [[k0 v0] [Hin Hv]]. cbn [fst snd] in Hv.
  destruct (JSSet.has s v0) eqn:Hhas.
  - destruct (JSSet.size (JSSet.delete s v0) =? 0); [destruct Hv |].
    destruct Hv as [[= <- <-] | []]. apply JSSetFacts.In_delete in Ht.
    split; [exact (H k0 v0 t Hin (proj1 Ht)) | exact (proj2 Ht)].
  - destruct Hv as [[= <- <-] | []].
    split; [exact (H k0 v0 t Hin Ht) |].
    intros ->. apply JSSetFacts.has_false in Hhas. contradiction.
Qed.

Lemma all_live_without (live : JSSet.t) (s : SocketId) (m : JSMap.t JSSet.t) :
  all_live live m -> all_live (JSSet.delete s live) (without s m).
Proof.
  intros H R users t Hin Ht. apply JSSetFacts.In_delete.
  unfold without in Hin. apply in_map_iff in Hin.
  destruct Hin as [[k0 v0] [[= <- <-] Hin]]. cbn [snd] in Ht.
  apply JSSetFacts.In_delete in Ht.
  split; [exact (H k0 v0 t Hin (proj1 Ht)) | exact (proj2 Ht)].
Qed.

Lemma no_ghosts_after (ev : Event) (live : JSSet.t) (st : Server) :
  admitted ev live = true ->
  no_ghosts live st -> no_ghosts (live_after ev live) (after ev st).
Proof.
  intros Hadm [Hu [Hc [Hv Hr]]]. unfold after.
  destruct ev as [m | s tr o u | s d | s R now | s d now | s R now | s R
                 | s b to | s b to | s b to | s R | s now | s e];
    cbn [admitted event_socket live_after] in *;
    try (apply JSSetFacts.has_In in Hadm);
    try (now repeat split);
    [ rewrite connection_run | rewrite user_join_run
    | rewrite chat_join_room_run | rewrite chat_leave_room_run
    | rewrite video_join_room_run | rewrite video_leave_room_run
    | rewrite disconnect_run ];
    unfold no_ghosts;
    cbn [fst snd with_rooms with_activeUsers activeUsers chatRooms
         videoRooms rooms].
  - assert (Hsub : forall t, In t live -> In t (JSSet.add s live)).
    { intros t Ht. apply JSSetFacts.In_add. now right. }
    split; [intros t u0 Hin; apply Hsub; exact (Hu t u0 Hin) |].
    split; [exact (all_live_mono _ _ _ Hsub Hc) |].
    split; [exact (all_live_mono _ _ _ Hsub Hv) |].
    apply all_live_addAll; [apply JSSetFacts.In_add; now left |].
    exact (all_live_mono _ _ _ Hsub Hr).
  - split; [| auto]. intros t u0 Hin. apply JSMapFacts.In_set_entry in Hin.
    destruct Hin as [[-> _] | Hin]; [exact Hadm | exact (Hu t u0 Hin)].
  - split; [exact Hu |]. split; [| split; [exact Hv |]];
      now apply all_live_addAll.
  - split; [exact Hu |]. split; [| split; [exact Hv |]];
      now apply all_live_del.
  - split; [exact Hu |]. split; [exact Hc |]. split;
      now apply all_live_addAll.
  - split; [exact Hu |]. split; [exact Hc |]. split;
      now apply all_live_del.
  - split; [| split; [| split]].
    + intros t u0 Hin. apply JSMapFacts.In_delete_entry in Hin.
      apply JSSetFacts.In_delete.
      split; [exact (Hu t u0 (proj1 Hin)) | exact (proj2 Hin)].
    + now apply all_live_without.
    + now apply all_live_without.
    + now apply all_live_delAll.
Qed.

(** ** Rooms named apart from sockets *)

Lemma own_room_rooms (s : SocketId) (a b : Server) :
  rooms a = rooms b -> own_room s a -> own_room s b.
Proof. intros E H t. unfold joined. rewrite <- E. apply H. Qed.

Lemma own_rooms_after (ev : Event) (live : JSSet.t) (st : Server) :
  NoDup (JSMap.keys (rooms st)) ->
  admitted ev live = true ->
  well_named ev live st = true ->
  (forall s, In s live -> own_room s st) ->
  forall s, In s (live_after ev live) -> own_room s (after ev st).
Proof.
  intros Hnd Hadm Hwn Hown x Hx.
  assert (Hjoin : forall w t R now,
            JSSet.has R live = false -> In x live ->
            own_room x (after (join_event w t R now) st)).
  { intros w t R now HR Hlive. apply own_room_join_other; [| now apply Hown].
    intros ->. apply JSSetFacts.has_false in HR. contradiction. }
  assert (Hleave : forall w t R now,
            JSSet.has R live = false -> In x live ->
            own_room x (after (leave_event w t R now) st)).
  { intros w t R now HR Hlive. apply own_room_leave_other; [| now apply Hown].
    intros ->. apply JSSetFacts.has_false in HR. contradiction. }
  destruct ev as [m | s tr o u | s d | s R now | s d now | s R now | s R
                 | s b to | s b to | s b to | s R | s now | s e];
    cbn [admitted event_socket well_named event_room live_after] in *;
    try (apply negb_true_iff in Hwn);
    try (apply (own_room_rooms x st); [symmetry; now apply rooms_kept |];
         now apply Hown).
  - apply negb_true_iff in Hadm. apply JSSetFacts.has_false in Hadm.
    apply JSMapFacts.has_false_get in Hwn.
    apply JSSetFacts.In_add in Hx. destruct Hx as [-> | Hx].
    + apply connection_own_room. unfold members. now rewrite Hwn.
    + intros t. unfold joined, after. rewrite connection_run.
      cbn [fst snd with_rooms rooms]. rewrite In_members_addAll.
      rewrite <- (Hown x Hx t). unfold joined.
      split; [intros [[-> _] | H]; [contradiction | exact H] | now right].
  - exact (Hjoin ChatRooms s R now Hwn Hx).
  - exact (Hleave ChatRooms s R now Hwn Hx).
  - exact (Hjoin VideoRooms s R noon Hwn Hx).
  - exact (Hleave VideoRooms s R noon Hwn Hx).
  - apply JSSetFacts.In_delete in Hx. destruct Hx as [Hx Hne].
    intros t. unfold joined, after. rewrite disconnect_run.
    cbn [fst snd rooms]. rewrite members_delAll by assumption.
    rewrite JSSetFacts.In_delete. pose proof (Hown x Hx t) as H.
    unfold joined in H. rewrite H.
    split; [tauto | intros ->; tauto].
Qed.

Lemma singleton_members (s : SocketId) (l : JSSet.t) :
  NoDup l -> (forall t, In t l <-> t = s) -> l = [s].
Proof.
  intros Hnd H. destruct l as [| x l].
  - exfalso. now apply (H s).
  - assert (x = s) by (apply H; now left). subst x.
    inversion Hnd as [| ? ? Hnotin Hrest]; subst.
    destruct l as [| y l]; [reflexivity |].
    exfalso. apply Hnotin. assert (y = s) by (apply H; right; now left).
    subst y. now left.
Qed.

(** ** Message ids *)

(** Digits up to the first dash: the dash ends the number. *)
Lemma uint_dash_split (d1 d2 : Decimal.uint) (a b : string) :
  (NilEmpty.string_of_uint d1 ++ String "-" a =
   NilEmpty.string_of_uint d2 ++ String "-" b)%string ->
  d1 = d2 /\ a = b.
Proof.
  revert d2. induction d1 as [| d1 IH | d1 IH | d1 IH | d1 IH | d1 IH
                             | d1 IH | d1 IH | d1 IH | d1 IH | d1 IH];
    intros [| d2 | d2 | d2 | d2 | d2 | d2 | d2 | d2 | d2 | d2] H;
    cbn in H; try discriminate H;
    injection H as H;
    try (destruct (IH d2 H) as [-> ->]); auto.
Qed.

Lemma dec_nonneg (z : Z) :
  0 <= z ->
  exists u, Z.to_int z = Decimal.Pos u /\ dec z = NilEmpty.string_of_uint u.
Proof.
  intros Hz. unfold dec. destruct z as [| p | p]; [| | lia].
  - exists (Decimal.D0 Decimal.Nil). split; reflexivity.
  - exists (Pos.to_uint p). split; [reflexivity |]. cbn.
    pose proof (DecimalPos.Unsigned.to_uint_nonnil p) as Hnn.
    unfold NilZero.string_of_uint.
    destruct (Pos.to_uint p); [contradiction | reflexivity ..].
Qed.

(** X14. The [id] of a relayed chat message is made of the clock's
    milliseconds and the sender's socket id, and of nothing else: two
    messages carry the same id exactly when they come from the same
    socket within the same millisecond, whatever their text and
    room. *)
Theorem message_ids_coincide (st st' : Server) (s s' : SocketId)
    (data data' : MessageData.t) (now now' : Clock) :
  0 <= ms now -> 0 <= ms now' ->
  (reported "chat:receive-message" "id"
     (effects (ChatSendMessage s data now) st) =
   reported "chat:receive-message" "id"
     (effects (ChatSendMessage s' data' now') st')
   <-> ms now = ms now' /\ s = s').
Proof.
  intros Hz Hz'. unfold effects. rewrite !chat_send_message_run.
  cbn [snd reported]. cbn [String.eqb Ascii.eqb Bool.eqb]. cbn match.
  cbn [field assoc]. cbn [String.eqb Ascii.eqb Bool.eqb]. cbn match.
  split.
  - intros H. injection H as H.
    destruct (dec_nonneg (ms now) Hz) as [u [Hu Hd]].
    destruct (dec_nonneg (ms now') Hz') as [u' [Hu' Hd']].
    rewrite Hd, Hd' in H.
    destruct (uint_dash_split u u' s s' H) as [-> ->].
    split; [| reflexivity].
    apply DecimalZ.to_int_inj. now rewrite Hu, Hu'.
  - intros [-> ->]. reflexivity.
Qed.

Lemma message_ids_coincide_witness :
  reported "chat:receive-message" "id"
    (effects (ChatSendMessage "a1" hello noon) in_chat) =
  reported "chat:receive-message" "id"
    (effects (ChatSendMessage "a1" hello noon) after_call).
Proof.
  apply (message_ids_coincide in_chat after_call "a1" "a1" hello hello
           noon noon); [vm_compute; discriminate .. |].
  split; reflexivity.
Defined.

(** ** Who is told of a video join *)

(** X15. When the joiner is alone in the room named by its id, a
    ['video:join-room'] sends the list of the others to the joiner and
    to nobody else, and ['video:user-joined'], naming the joiner's
    socket id, to exactly the sockets that were joined to the Socket.io
    room before, the joiner apart. *)
Theorem video_join_notices (st : Server) (s t : SocketId) (R : RoomId) :
  own_room s st ->
  let out := effects (VideoJoinRoom s R) st in
  ((exists payload, receives t "video:all-users" payload out) <-> t = s) /\
  ((exists payload,
      receives t "video:user-joined" payload out /\
      field "socketId" payload = JStr s)
   <-> joined t R st /\ t <> s).
Proof.
  intros Hown. cbn zeta. unfold effects. rewrite video_join_room_run.
  cbn [snd]. pose proof (own_room_addAll s R st Hown) as Hown'.
  assert (Hothers : In t (Adapter.targets R [s]
                            (Adapter.addAll s R (rooms st))) <->
                    joined t R st /\ t <> s).
  { rewrite In_targets_except, Hown', In_members_addAll. unfold joined.
    intuition congruence. }
  split; split.
  - intros [p [recipients [[Hc | [He | [He | []]]] Hin]]];
      try discriminate.
    injection He as _ <-. rewrite targets_all in Hin. now apply Hown'.
  - intros ->. eexists. eexists. split; [right; left; reflexivity |].
    rewrite targets_all. now apply Hown'.
  - intros [p [[recipients [[Hc | [He | [He | []]]] Hin]] _]];
      try discriminate.
    injection He as _ <-. now apply Hothers.
  - intros H. eexists. split.
    + eexists. split; [right; right; left; reflexivity |].
      now apply Hothers.
    + reflexivity.
Qed.

Lemma video_join_notices_witness :
  exists payload,
    receives "a1" "video:user-joined" payload
      (effects (VideoJoinRoom "b2" "W") in_chat) /\
    field "socketId" payload = JStr "b2".
Proof.
  assert (Hown : own_room "b2" in_chat).
  { intros t. unfold joined. vm_compute. intuition congruence. }
  apply (video_join_notices in_chat "b2" "a1" "W" Hown).
  split; [vm_compute; now left | discriminate].
Defined.

(** * The client and the relay together *)


Lemma or_default_truthy (v : json) (s : string) :
  s <> "" -> truthy (js_or v (JStr s)) = true.
Proof.
  intros Hs. unfold js_or. destruct (truthy v) eqn:E; [exact E |].
  cbn. destruct (String.eqb_spec s ""); [contradiction | reflexivity].
Qed.

(** X16. Every call of the client's socket service that emits reaches
    the handler it is written for, with its arguments in the fields the
    handler reads: the two sides agree on event names and field names.
    Without a socket, so on a new service and after [disconnect()], a
    call emits nothing and reports nothing, and [isConnected()] is
    falsy. *)
Theorem wrappers_reach_handlers (r : Request) (svc : SocketService.t)
    (socket : SocketId) (now : Clock) :
  match SocketService.socket svc with
  | Some _ =>
      exists p,
        call r svc = [p] /\
        socket_on socket now p = Runs (meant r socket now)
  | None => call r svc = []
  end /\
  call r SocketService.new = [] /\
  call r (SocketService.disconnect svc) = [] /\
  truthy (SocketService.isConnected (SocketService.disconnect svc)) = false.
Proof.
  destruct svc as [[c |] [|]]; destruct r; cbn; eauto 6.
Qed.



(** X18. The identity a client announces is the identity the relay
    keeps: on ['connect'] the service sends the user data
    [connectSocket] built, and the relay's ['user:join'] handler stores
    it under the socket's id, with the user id and the email as given
    and a user name that is never empty. *)
Theorem connect_registers_identity (user_id metadata_username : json)
    (email : option string) (svc : SocketService.t) (c : bool)
    (socket : SocketId) (now : Clock) (st : Server) :
  SocketService.socket svc = Some c ->
  exists svc' p ev u,
    SocketService.on_connect
      (connectSocket user_id metadata_username email) svc =
      (svc', Some [p]) /\
    SocketService.connected svc' = true /\
    socket_on socket now p = Runs ev /\
    JSMap.get socket (activeUsers (after ev st)) = Some u /\
    User.id u = socket /\
    User.userId u = user_id /\
    User.email u =
      match email with Some e => JStr e | None => JUndefined end /\
    truthy (User.username u) = true.
Proof.
  intros Hsock. unfold SocketService.on_connect. rewrite Hsock.
  eexists. eexists. eexists. eexists.
  split; [reflexivity |]. split; [reflexivity |].
  split; [reflexivity |].
  unfold after. rewrite user_join_run.
  cbn [fst snd with_activeUsers activeUsers].
  rewrite JSMapFacts.get_set_same.
  split; [reflexivity |]. split; [reflexivity |]. split; [reflexivity |].
  split; [reflexivity |].
  cbn. now apply or_default_truthy.
Qed.

Lemma connect_registers_identity_witness :
  exists svc' p,
    SocketService.on_connect
      (connectSocket (JStr "u-1") JUndefined (Some "ada@example.org"))
      {| SocketService.socket := Some true;
         SocketService.connected := false |} = (svc', Some [p]) /\
    socket_on "a1" noon p =
      Runs (UserJoin "a1"
              {| UserData.userId := JStr "u-1";
                 UserData.username := JStr "ada";
                 UserData.email := JStr "ada@example.org" |}).
Proof.
  destruct (connect_registers_identity (JStr "u-1") JUndefined
              (Some "ada@example.org")
              {| SocketService.socket := Some true;
                 SocketService.connected := false |} true "a1" noon boot
              eq_refl) as [svc' [p [ev [u [H _]]]]].
  exists svc', p. split; [exact H |].
  injection H as _ <-. reflexivity.
Defined.

(** * The relay with connection-state recovery *)

(** ** Restored sessions *)

Lemma In_members_rejoin (t s : SocketId) (k : RoomId) (rooms_held : list RoomId)
    (rs : JSMap.t JSSet.t) :
  In t (members k (Relay.rejoin s rooms_held rs)) <->
  (In k rooms_held /\ t = s) \/ In t (members k rs).
Proof.
  unfold Relay.rejoin. revert rs.
  induction rooms_held as [| R l IH]; intros rs; cbn [fold_left].
  - cbn. tauto.
  - rewrite IH, In_members_addAll. cbn [In]. intuition congruence.
Qed.

Lemma all_live_rejoin (live : JSSet.t) (s : SocketId)
    (rooms_held : list RoomId) (rs : JSMap.t JSSet.t) :
  In s live -> all_live live rs ->
  all_live live (Relay.rejoin s rooms_held rs).
Proof.
  intros Hs. unfold Relay.rejoin. revert rs.
  induction rooms_held as [| R l IH]; intros rs H; cbn [fold_left];
    [exact H |].
  apply IH. now apply all_live_addAll.
Qed.

Lemma rejoin_tidy (s : SocketId) (rooms_held : list RoomId)
    (rs : JSMap.t JSSet.t) :
  tidy rs -> tidy (Relay.rejoin s rooms_held rs).
Proof.
  unfold Relay.rejoin. revert rs.
  induction rooms_held as [| R l IH]; intros rs H; cbn [fold_left];
    [exact H |].
  apply IH. now apply Tidy.addAll_tidy.
Qed.

(** What looking up a session does to the relay: nothing, but for a
    session that is too old. *)
Lemma restoreSession_keeps (at_ : Z) (s : SocketId) (offset : nat)
    (r : Relay.t) :
  let r1 := fst (Relay.restoreSession at_ s offset r) in
  Relay.server r1 = Relay.server r /\
  Relay.sockets r1 = Relay.sockets r /\
  Relay.sids r1 = Relay.sids r /\
  Relay.packets r1 = Relay.packets r /\
  Relay.next r1 = Relay.next r /\
  (forall k v, In (k, v) (Relay.sessions r1) -> In (k, v) (Relay.sessions r)) /\
  (forall session again,
     snd (Relay.restoreSession at_ s offset r) = Some (session, again) ->
     r1 = r /\ JSMap.get s (Relay.sessions r) = Some session).
Proof.
  unfold Relay.restoreSession.
  destruct (JSMap.get s (Relay.sessions r)) as [session |] eqn:Hget.
  - destruct (Relay.disconnectedAt session + Relay.window <? at_).
    + cbn. do 5 (split; [reflexivity |]). split; [| discriminate].
      intros k v Hin. now apply JSMapFacts.In_delete_entry in Hin.
    + destruct (Relay.after_offset offset (Relay.packets r)) as [later |];
        cbn [fst snd]; do 5 (split; [reflexivity |]);
        (split; [auto |]); [| discriminate].
      intros session' found E. injection E as <- _. now split.
  - cbn. do 5 (split; [reflexivity |]). split; [auto | discriminate].
Qed.

(** A connection that comes back either is not restored, and then the
    handlers' state and the connected sockets are as before, or is
    restored with the rooms of its session. *)
Lemma recovers_cases (at_ : Z) (s : SocketId) (offset : nat)
    (transport : string) (origin userAgent : json) (r : Relay.t) :
  let r' := fst (Relay.recovers at_ s offset transport origin userAgent r) in
  (Relay.server r' = Relay.server r /\ Relay.sockets r' = Relay.sockets r /\
   snd (Relay.recovers at_ s offset transport origin userAgent r) = []) \/
  (exists session again,
     Relay.restoreSession at_ s offset r = (r, Some (session, again)) /\
     JSMap.get s (Relay.sessions r) = Some session /\
     Relay.server r' =
       after (Connection s transport origin userAgent)
         (with_rooms
            (Relay.rejoin s (Relay.held session) (rooms (Relay.server r)))
            (Relay.server r)) /\
     Relay.sockets r' = JSSet.add s (Relay.sockets r) /\
     snd (Relay.recovers at_ s offset transport origin userAgent r) =
       (map (fun p => Emit (Relay.event p) (Relay.payload p) [s]) again ++
        effects (Connection s transport origin userAgent)
          (with_rooms
             (Relay.rejoin s (Relay.held session) (rooms (Relay.server r)))
             (Relay.server r)))%list).
Proof.
  cbn zeta. unfold Relay.recovers.
  pose proof (restoreSession_keeps at_ s offset r) as H. cbn zeta in H.
  destruct (Relay.restoreSession at_ s offset r) as [r1 [[session again] |]].
  - right. cbn [fst snd] in *.
    destruct H as [_ [_ [_ [_ [_ [_ H]]]]]].
    destruct (H session again eq_refl) as [-> Hget].
    exists session, again. repeat split; assumption || reflexivity.
  - left. cbn [fst snd] in *. destruct H as [H1 [H2 _]]. auto.
Qed.

(** The rooms of a restored socket. *)
Lemma rooms_recovered (s : SocketId) (transport : string)
    (origin userAgent : json) (rooms_held : list RoomId) (st : Server) :
  rooms (after (Connection s transport origin userAgent)
           (with_rooms (Relay.rejoin s rooms_held (rooms st)) st)) =
  Adapter.addAll s s (Relay.rejoin s rooms_held (rooms st)).
Proof. unfold after. rewrite connection_run. reflexivity. Qed.

Lemma maps_recovered (s : SocketId) (transport : string)
    (origin userAgent : json) (rs : JSMap.t JSSet.t) (st : Server) :
  let st' := after (Connection s transport origin userAgent)
               (with_rooms rs st) in
  activeUsers st' = activeUsers st /\
  chatRooms st' = chatRooms st /\
  videoRooms st' = videoRooms st.
Proof. unfold after. rewrite connection_run. repeat split. Qed.

(** ** The lists stay maps and sets, with recovery *)

Lemma well_formed_step (o : Relay.Occurrence) (r : Relay.t) :
  well_formed (Relay.server r) ->
  well_formed (Relay.server (fst (Relay.step o r))).
Proof.
  intros H. destruct o as [at_ ev | at_ s now | at_ s offset tr og ua | at_];
    cbn [Relay.step].
  - now apply well_formed_after.
  - cbn. now apply well_formed_after.
  - destruct (recovers_cases at_ s offset tr og ua r)
      as [[E _] | [session [again [_ [_ [E _]]]]]]; rewrite E; [exact H |].
    apply well_formed_after. destruct H as [Hu [Hc [Hv Hr]]].
    unfold well_formed.
    cbn [with_rooms activeUsers chatRooms videoRooms rooms].
    split; [exact Hu |]. split; [exact Hc |]. split; [exact Hv |].
    now apply rejoin_tidy.
  - exact H.
Qed.

Lemma well_formed_relay (os : list Relay.Occurrence) :
  well_formed (Relay.server (Relay.run os Relay.boot)).
Proof.
  assert (H : forall r, well_formed (Relay.server r) ->
                        well_formed (Relay.server (Relay.run os r))).
  { induction os as [| o os IH]; intros r Hr; [exact Hr |].
    cbn [Relay.run]. apply IH. now apply well_formed_step. }
  apply H. repeat split; constructor || (intros ? ? []).
Qed.



(** ** Only connected sockets are remembered, with recovery *)

Lemma no_ghosts_step (o : Relay.Occurrence) (r : Relay.t) :
  Relay.admitted o r = true ->
  no_ghosts (Relay.sockets r) (Relay.server r) ->
  no_ghosts (Relay.sockets (fst (Relay.step o r)))
            (Relay.server (fst (Relay.step o r))).
Proof.
  intros Hadm H.
  destruct o as [at_ ev | at_ s now | at_ s offset tr og ua | at_];
    cbn [Relay.step Relay.admitted] in *.
  - now apply no_ghosts_after.
  - cbn. now apply (no_ghosts_after (Disconnect s now)).
  - destruct (recovers_cases at_ s offset tr og ua r)
      as [[E1 [E2 _]] | [session [again [_ [_ [E1 [E2 _]]]]]]];
      rewrite E1, E2; [exact H |].
    destruct H as [Hu [Hc [Hv Hr]]].
    assert (Hsub : forall t, In t (Relay.sockets r) ->
                             In t (JSSet.add s (Relay.sockets r))).
    { intros t Ht. apply JSSetFacts.In_add. now right. }
    assert (Hs : In s (JSSet.add s (Relay.sockets r)))
      by (apply JSSetFacts.In_add; now left).
    destruct (maps_recovered s tr og ua
                (Relay.rejoin s (Relay.held session) (rooms (Relay.server r)))
                (Relay.server r)) as [Ea [Ec Ev]].
    unfold no_ghosts. rewrite Ea, Ec, Ev, rooms_recovered.
    split; [intros t u0 Hin; apply Hsub; exact (Hu t u0 Hin) |].
    split; [exact (all_live_mono _ _ _ Hsub Hc) |].
    split; [exact (all_live_mono _ _ _ Hsub Hv) |].
    apply all_live_addAll; [exact Hs |].
    apply all_live_rejoin; [exact Hs |].
    exact (all_live_mono _ _ _ Hsub Hr).
  - exact H.
Qed.

Lemma no_ghosts_relay (os : list Relay.Occurrence) :
  Relay.admissible os Relay.boot = true ->
  no_ghosts (Relay.sockets (Relay.run os Relay.boot))
            (Relay.server (Relay.run os Relay.boot)).
Proof.
  assert (H : forall r,
            Relay.admissible os r = true ->
            no_ghosts (Relay.sockets r) (Relay.server r) ->
            no_ghosts (Relay.sockets (Relay.run os r))
                      (Relay.server (Relay.run os r))).
  { induction os as [| o os IH]; intros r Hadm Hng; [exact Hng |].
    cbn [Relay.admissible] in Hadm. apply andb_true_iff in Hadm.
    destruct Hadm as [Ho Hrest]. cbn [Relay.run].
    apply IH; [exact Hrest |]. now apply no_ghosts_step. }
  intros Hadm. apply H; [exact Hadm |].
  split; [intros ? ? [] | repeat split; intros ? ? ? []].
Qed.

(** X12. Along every run from the start in which handlers run for
    connected sockets only, connections that drop, come back and are
    recovered included, the relay remembers nobody who is gone: every
    key of [activeUsers], every member of a chat room or video room
    Set, and every member of a Socket.io room is a socket that is
    connected.  A disconnect leaves at most emptied Sets behind. *)
Theorem no_ghost_members (os : list Relay.Occurrence) :
  Relay.admissible os Relay.boot = true ->
  let r := Relay.run os Relay.boot in
  (forall s u, In (s, u) (activeUsers (Relay.server r)) ->
               In s (Relay.sockets r)) /\
  (forall w R users t,
     In (R, users) (room_map w (Relay.server r)) -> In t users ->
     In t (Relay.sockets r)) /\
  (forall R t, joined t R (Relay.server r) -> In t (Relay.sockets r)).
Proof.
  intros Hadm. cbn zeta.
  destruct (no_ghosts_relay os Hadm) as [Hu [Hc [Hv Hr]]].
  split; [exact Hu |]. split.
  - intros [] R users t Hin Ht; [exact (Hc R users t Hin Ht) |
                                 exact (Hv R users t Hin Ht)].
  - intros R t Hj. unfold joined, members in Hj.
    destruct (JSMap.get R (rooms (Relay.server (Relay.run os Relay.boot))))
      as [m |] eqn:Hget; [| destruct Hj].
    exact (Hr R m t (JSMapFacts.get_In R m _ Hget) Hj).
Qed.

Example dropped_state :
  Relay.server (Relay.run dropped Relay.boot) =
    {| activeUsers := [];
       chatRooms := [("W", ["b2"])];
       videoRooms := [];
       rooms := [("b2", ["b2"]); ("W", ["b2"])] |} /\
  Relay.sockets (Relay.run dropped Relay.boot) = ["b2"] /\
  JSMap.get "a1" (Relay.sessions (Relay.run dropped Relay.boot)) =
    Some {| Relay.held := ["a1"; "W"];
            Relay.disconnectedAt := 1700000001000 |} /\
  map Relay.id (Relay.packets (Relay.run dropped Relay.boot)) =
    [0; 1; 2; 3; 4; 5]%nat /\
  map Relay.event (Relay.packets (Relay.run dropped Relay.boot)) =
    ["chat:user-joined"; "chat:room-joined";
     "chat:user-joined"; "chat:room-joined";
     "chat:user-left"; "chat:receive-message"].
Proof. repeat split. Qed.

Example comeback_state :
  Relay.server (Relay.run comeback Relay.boot) =
    {| activeUsers := [];
       chatRooms := [("W", ["b2"])];
       videoRooms := [];
       rooms := [("b2", ["b2"]); ("W", ["b2"; "a1"]); ("a1", ["a1"])] |} /\
  Relay.sockets (Relay.run comeback Relay.boot) = ["b2"; "a1"] /\
  emits (snd (Relay.step returns (Relay.run dropped Relay.boot))) =
    [("chat:receive-message",
      JObj [("id", JStr "msg-1700000000000-b2");
            ("roomId", JStr "W");
            ("message", JStr "hello");
            ("userId", JStr "u-1");
            ("username", JStr "Ada");
            ("timestamp", JStr "2023-11-14T22:13:20.000Z")])].
Proof. repeat split. Qed.

Lemma no_ghost_members_witness :
  joined "a1" "W" (Relay.server (Relay.run comeback Relay.boot)) /\
  In "a1" (Relay.sockets (Relay.run comeback Relay.boot)).
Proof.
  assert (Hj : joined "a1" "W" (Relay.server (Relay.run comeback Relay.boot)))
    by (vm_compute; auto).
  split; [exact Hj |].
  exact (proj2 (proj2 (no_ghost_members comeback eq_refl)) "W" "a1" Hj).
Defined.

(** ** Rooms named apart from sockets, with recovery *)

Lemma own_rooms_step (o : Relay.Occurrence) (r : Relay.t) :
  well_formed (Relay.server r) ->
  Relay.admitted o r = true ->
  Relay.well_named o r = true ->
  (forall x, In x (Relay.sockets r) -> own_room x (Relay.server r)) ->
  forall x, In x (Relay.sockets (fst (Relay.step o r))) ->
            own_room x (Relay.server (fst (Relay.step o r))).
Proof.
  intros Hwf Hadm Hwn Hown.
  assert (Hnd : NoDup (JSMap.keys (rooms (Relay.server r))))
    by (destruct Hwf as [_ [_ [_ [Hnd _]]]]; exact Hnd).
  destruct o as [at_ ev | at_ s now | at_ s offset tr og ua | at_];
    cbn [Relay.step Relay.admitted Relay.well_named] in *.
  - now apply own_rooms_after.
  - cbn. now apply (own_rooms_after (Disconnect s now)).
  - destruct (recovers_cases at_ s offset tr og ua r)
      as [[E1 [E2 _]] | [session [again [_ [Hget [E1 [E2 _]]]]]]];
      rewrite E1, E2; [exact Hown |].
    apply negb_true_iff in Hadm. apply JSSetFacts.has_false in Hadm.
    apply andb_true_iff in Hwn. destruct Hwn as [Hfree Hheld].
    apply negb_true_iff, JSMapFacts.has_false_get in Hfree.
    rewrite Hget in Hheld. rewrite forallb_forall in Hheld.
    intros x Hx t. unfold joined.
    rewrite rooms_recovered, In_members_addAll, In_members_rejoin.
    apply JSSetFacts.In_add in Hx. destruct Hx as [-> | Hx].
    + unfold members. rewrite Hfree. cbn. intuition congruence.
    + pose proof (Hown x Hx t) as H. unfold joined in H. rewrite H.
      assert (Hne : x <> s) by (intros ->; contradiction).
      split; [| tauto].
      intros [[E _] | [[Hin _] | E]]; [congruence | | exact E].
      specialize (Hheld x Hin). apply orb_true_iff in Hheld.
      destruct Hheld as [E | E].
      * apply String.eqb_eq in E. contradiction.
      * apply negb_true_iff, JSSetFacts.has_false in E. contradiction.
  - exact Hown.
Qed.

(** X13. Along every run from the start in which room names are kept
    apart from socket ids (no client joins or leaves a room named by a
    connected socket's id, a socket connects or comes back under an id
    that names no room, and the rooms a socket comes back to are not
    named by another connected socket's id), every connected socket is
    alone in the room named by its id: [io.to(socket.id)] then reaches
    that socket and nobody else. *)
Theorem disciplined_own_rooms (os : list Relay.Occurrence) (s : SocketId) :
  Relay.disciplined os Relay.boot = true ->
  let r := Relay.run os Relay.boot in
  In s (Relay.sockets r) ->
  own_room s (Relay.server r) /\
  Adapter.targets s [] (rooms (Relay.server r)) = [s].
Proof.
  assert (H : forall r,
            well_formed (Relay.server r) ->
            (forall x, In x (Relay.sockets r) -> own_room x (Relay.server r)) ->
            Relay.disciplined os r = true ->
            forall x, In x (Relay.sockets (Relay.run os r)) ->
                      own_room x (Relay.server (Relay.run os r))).
  { induction os as [| o os IH]; intros r Hwf Hown Hd x Hx;
      [now apply Hown |].
    cbn [Relay.disciplined] in Hd. apply andb_true_iff in Hd.
    destruct Hd as [Hd Hrest]. apply andb_true_iff in Hd.
    destruct Hd as [Hadm Hwn]. cbn [Relay.run] in *.
    apply (IH (fst (Relay.step o r)));
      [now apply well_formed_step | | exact Hrest | exact Hx].
    now apply own_rooms_step. }
  intros Hd r Hs.
  assert (Hwf0 : well_formed (Relay.server Relay.boot))
    by (repeat split; constructor || (intros ? ? [])).
  assert (Hown : own_room s (Relay.server r)).
  { apply (H Relay.boot); try assumption. intros x []. }
  split; [exact Hown |].
  rewrite targets_all. apply singleton_members; [| exact Hown].
  apply Tidy.members_NoDup.
  destruct (well_formed_relay os) as [_ [_ [_ Hr]]]. exact Hr.
Qed.

Lemma disciplined_own_rooms_witness :
  Adapter.targets "a1" [] (rooms (Relay.server (Relay.run comeback Relay.boot)))
  = ["a1"].
Proof.
  apply (disciplined_own_rooms comeback "a1");
    [reflexivity | vm_compute; auto].
Defined.

(** ** The room maps list whoever is joined, until a connection is
       recovered *)

(** X11. As long as no connection is recovered, whoever is joined to a
    Socket.io room, and so receives what is sent to it, is the socket
    the room is named after or is listed for that room in [chatRooms]
    or in [videoRooms]: the maps may list a socket that is no longer
    joined, never the other way round. *)
Theorem joined_sockets_are_listed (os : list Relay.Occurrence) (R : RoomId)
    (t : SocketId) :
  Relay.always_new os = true ->
  let st := Relay.server (Relay.run os Relay.boot) in
  joined t R st ->
  t = R \/ In t (members R (chatRooms st)) \/ In t (members R (videoRooms st)).
Proof.
  assert (H : forall r,
            Relay.always_new os = true ->
            well_formed (Relay.server r) -> mirrored (Relay.server r) ->
            mirrored (Relay.server (Relay.run os r))).
  { induction os as [| o os IH]; intros r Hnew Hwf Hm; [exact Hm |].
    cbn [Relay.always_new forallb] in Hnew. apply andb_true_iff in Hnew.
    destruct Hnew as [Ho Hnew]. cbn [Relay.run].
    apply IH; [exact Hnew | now apply well_formed_step |].
    assert (Hnd : NoDup (JSMap.keys (rooms (Relay.server r))))
      by (destruct Hwf as [_ [_ [_ [Hnd _]]]]; exact Hnd).
    destruct o as [at_ ev | at_ s now | at_ s offset tr og ua | at_];
      cbn [Relay.step]; try discriminate Ho.
    - now apply mirrored_after.
    - cbn. now apply (mirrored_after (Disconnect s now)).
    - exact Hm. }
  intros Hnew st. apply (H Relay.boot Hnew).
  - repeat split; constructor || (intros ? ? []).
  - intros R' t' [].
Qed.

Lemma joined_sockets_are_listed_witness :
  In "b2" (members "W" (chatRooms (Relay.server (Relay.run dropped Relay.boot)))).
Proof.
  destruct (joined_sockets_are_listed dropped "W" "b2" eq_refl)
    as [E | [E | E]].
  - vm_compute. now left.
  - discriminate E.
  - exact E.
  - destruct E.
Defined.

(** ** A recovered connection *)



(** ** The packet log *)











(** ** What the relay keeps, and where *)



